(** * journal_gpt: retrieval-augmented journaling pipeline

    Shallow embedding of [src/server/journal_gpt.py] and the properties of
    its retrieval, context-assembly, feedback and storage functions.

    The Python module talks to three collaborators: the Qdrant collection
    (scroll, search, upsert), the embedding provider and the chat-completion
    provider.  They are modelled as an environment of oracles ([Env]) whose
    answers may depend on the whole history; the collection itself is a finite
    map from point ids to stored points, and every collaborator call is
    recorded in a trace so that "no provider call" is a statement about data. *)

From Stdlib Require Import ZArith QArith.QArith_base String Ascii Lia.
From stdpp Require Import base option list strings gmap fin_maps sorting.

Local Open Scope string_scope.
Local Open Scope Z_scope.

(** ** Data model *)

(** A JSON value stored under a payload key, as far as the module can tell
    values apart: null, an integer or a string (booleans, other numbers,
    arrays and objects are not modelled). *)
Inductive pyval :=
| PyNone
| PyInt (z : Z)
| PyString (s : string).

#[global] Instance pyval_eq_dec : EqDecision pyval.
Proof. solve_decision. Defined.

(** The [metadata] dict written by [store_journal_entry]; a key that is absent
    from the dict is [None] (what [dict.get] sees).  The timestamp is whatever
    JSON value the point holds: the module itself writes integers, but it
    reads what any writer of the collection has put there.  The user and the
    kind are strings, as the filter of the scroll requires of every entry it
    fetches. *)
Record Metadata := {
  md_user_id : option string;
  md_timestamp : option pyval;
  md_type : option string;
}.

(** The payload dict of a point, as langchain's Qdrant wrapper lays it out:
    the text under [page_content], the caller's metadata under [metadata]. *)
Record Payload := {
  page_content : option string;
  metadata : option Metadata;
}.

Definition Vector := list Q.

Record StoredPoint := {
  sp_payload : Payload;
  sp_vector : Vector;
}.

(** A point as returned by [qdrant.scroll]. *)
Record PointRecord := {
  rec_id : string;
  payload : Payload;
}.

(** A langchain [Document], as returned by [vectorstore.similarity_search]. *)
Record Document := {
  doc_page_content : string;
  doc_metadata : option Metadata;
}.

(** The exact-match filter [{user_id: ..., type: ...}] on the metadata. *)
Record MetaFilter := {
  f_user_id : string;
  f_type : string;
}.

Record ChatRequest := {
  req_model : string;
  req_temperature : Q;
  req_max_tokens : option Z;
  req_system : string;
  req_user : string;
}.

(** Any Python [Exception]: the ones raised by a collaborator, tagged by
    their origin, and the [TypeError] of a comparison inside [sorted]. *)
Inductive exn :=
| EmbeddingError (msg : string)
| IndexError (msg : string)
| GenerationError (msg : string)
| TypeError (msg : string).

Definition exn_msg (e : exn) : string :=
  match e with
  | EmbeddingError m | IndexError m | GenerationError m | TypeError m => m
  end.

(** One entry of the call trace. *)
Inductive event :=
| EvScroll (f : MetaFilter) (limit : nat)
| EvEmbedQuery (text : string)
| EvSearch (f : MetaFilter) (k : Z)
| EvEmbedDocuments (text : string)
| EvUpsert (id : string)
| EvChatCompletion (req : ChatRequest)
| EvPrint (msg : string).

Record State := {
  points : gmap string StoredPoint;
  trace : list event;
}.

(** The collaborators.  Each oracle sees the state at the time of the call
    (the collection and the calls made so far, the current one included).
    [comparison_error] is the interpreter's wording of the [TypeError] that
    sorting a list with the given keys raises (which two keys it names depends
    on the order in which the sort compares them). *)
Record Env := {
  comparison_error : list pyval → string;
  uuid4 : State → string;
  time_now : State → Z;
  scroll_fault : State → option exn;
  embed_query : State → string → exn + Vector;
  index_search : State → Vector → MetaFilter → Z → exn + list Document;
  embed_documents : State → string → exn + Vector;
  upsert_fault : State → option exn;
  chat_completion : State → ChatRequest → exn + string;
}.

(** ** A state-and-exception monad for the Python control flow *)

Definition M (A : Type) : Type := State → (exn + A) * State.

Definition ret {A} (a : A) : M A := λ s, (inr a, s).

Definition bind {A B} (m : M A) (k : A → M B) : M B :=
  λ s, match m s with
       | (inr a, s') => k a s'
       | (inl e, s') => (inl e, s')
       end.

Definition raise {A} (e : exn) : M A := λ s, (inl e, s).

(** [try: body except Exception as e: handler e] *)
Definition try_except {A} (body : M A) (handler : exn → M A) : M A :=
  λ s, match body s with
       | (inl e, s') => handler e s'
       | r => r
       end.

Definition logged (ev : event) (s : State) : State :=
  {| points := points s; trace := trace s ++ [ev] |}.

Definition log (ev : event) : M unit := λ s, (inr tt, logged ev s).

(** Ask an oracle about the current state. *)
Definition ask {A} (f : State → A) : M A := λ s, (inr (f s), s).

Definition lift_result {A} (r : exn + A) : M A :=
  match r with inl e => raise e | inr a => ret a end.

Definition lift_fault (o : option exn) : M unit :=
  match o with Some e => raise e | None => ret tt end.

Declare Scope py_scope.
Delimit Scope py_scope with py.
Notation "x <- m ;; k" := (bind m (λ x, k))
  (at level 100, m at next level, right associativity) : py_scope.
Notation "m ;; k" := (bind m (λ _, k))
  (at level 100, right associativity) : py_scope.

Local Open Scope py_scope.

(** ** Python built-ins used by the module *)

Module Py.

(** [l[:stop]]: a negative [stop] counts from the end of the list. *)
Definition slice_to {A} (stop : Z) (l : list A) : list A :=
  if decide (0 ≤ stop) then take (Z.to_nat stop) l
  else take (length l - Z.to_nat (- stop))%nat l.

(** [sorted(l, key=key, reverse=True)]: descending by key and stable, so
    elements with equal keys keep their original relative order. *)
Fixpoint insert_desc {A} (key : A → Z) (x : A) (l : list A) : list A :=
  match l with
  | [] => [x]
  | y :: l' => if decide (key x < key y) then y :: insert_desc key x l'
               else x :: l
  end.

Fixpoint sorted_reverse {A} (key : A → Z) (l : list A) : list A :=
  match l with
  | [] => []
  | x :: l' => insert_desc key x (sorted_reverse key l')
  end.

(** The same for keys with any strict order [lt] ([lt x y]: the key of [x] is
    below the key of [y]). *)
Fixpoint insert_desc_by {A} (lt : A → A → bool) (x : A) (l : list A) : list A :=
  match l with
  | [] => [x]
  | y :: l' => if lt x y then y :: insert_desc_by lt x l' else x :: l
  end.

Fixpoint sorted_reverse_by {A} (lt : A → A → bool) (l : list A) : list A :=
  match l with
  | [] => []
  | x :: l' => insert_desc_by lt x (sorted_reverse_by lt l')
  end.

Definition is_int (v : pyval) : bool :=
  match v with PyInt _ => true | _ => false end.

Definition is_str (v : pyval) : bool :=
  match v with PyString _ => true | _ => false end.

Definition int_of (v : pyval) : Z :=
  match v with PyInt z => z | _ => 0 end.

Definition str_of (v : pyval) : string :=
  match v with PyString s => s | _ => EmptyString end.

(** [sorted(l, key=key, reverse=True)] for keys that are JSON values.  A list
    of at most one element is returned without any comparison.  Otherwise the
    keys are compared with [<]: integers with integers and strings with
    strings (by code point); [None] compares with nothing and an integer does
    not compare with a string, so a list whose keys are not all integers or
    all strings makes the sort raise [TypeError]: the result is [None]. *)
Definition sorted_by_key_reverse {A} (key : A → pyval) (l : list A)
  : option (list A) :=
  if decide (length l ≤ 1)%nat then Some l
  else if forallb (λ x, is_int (key x)) l then
    Some (sorted_reverse (λ x, int_of (key x)) l)
  else if forallb (λ x, is_str (key x)) l then
    Some (sorted_reverse_by (λ x y, String.ltb (str_of (key x)) (str_of (key y))) l)
  else None.

(** The order [sorted_reverse] establishes. *)
Definition descending {A} (key : A → Z) (x y : A) : Prop := key y ≤ key x.

(** [sep.join(l)] *)
Fixpoint join (sep : string) (l : list string) : string :=
  match l with
  | [] => EmptyString
  | [x] => x
  | x :: l' => x +:+ sep +:+ join sep l'
  end.

(** Truthiness of [dict.get(key)] for a string-valued key: [None] and the
    empty string are falsy. *)
Definition truthy (o : option string) : Prop :=
  match o with
  | Some s => s ≠ EmptyString
  | None => False
  end.

#[global] Instance truthy_dec o : Decision (truthy o).
Proof. destruct o; simpl; apply _. Defined.

End Py.

(** ** The Qdrant collection *)

Definition SCROLL_LIMIT : nat := 100%nat.

Definition matches (f : MetaFilter) (p : Payload) : Prop :=
  metadata p ≫= md_user_id = Some (f_user_id f) ∧
  metadata p ≫= md_type = Some (f_type f).

#[global] Instance matches_dec f p : Decision (matches f p).
Proof. unfold matches. apply _. Defined.

(** The points of the collection in the order in which a scan visits them. *)
Definition collection_records (pts : gmap string StoredPoint) : list PointRecord :=
  (λ kv, {| rec_id := kv.1; payload := sp_payload kv.2 |}) <$> map_to_list pts.

Definition matching_records (f : MetaFilter) (pts : gmap string StoredPoint)
  : list PointRecord :=
  filter (λ r, matches f (payload r)) (collection_records pts).

Definition journal_filter (user_id : string) : MetaFilter :=
  {| f_user_id := user_id; f_type := "journal" |}.

Section Pipeline.

Context (env : Env).

(** [qdrant.scroll(collection_name, scroll_filter, limit)[0]] *)
Definition qdrant_scroll (f : MetaFilter) (limit : nat) : M (list PointRecord) :=
  log (EvScroll f limit) ;;
  fault <- ask (scroll_fault env) ;;
  lift_fault fault ;;
  pts <- ask points ;;
  ret (take limit (matching_records f pts)).

(** [vectorstore.similarity_search(query, k, filter)]: the wrapper embeds the
    query, then searches the collection under the metadata filter. *)
Definition similarity_search (query : string) (k : Z) (f : MetaFilter)
  : M (list Document) :=
  log (EvEmbedQuery query) ;;
  v <- ask (λ s, embed_query env s query) ;;
  v <- lift_result v ;;
  log (EvSearch f k) ;;
  r <- ask (λ s, index_search env s v f k) ;;
  lift_result r.

(** [vectorstore.add_texts(texts=[text], metadatas=[meta], ids=[id])]: the
    wrapper embeds the text, then upserts one point. *)
Definition add_texts (text : string) (meta : Metadata) (id : string) : M unit :=
  log (EvEmbedDocuments text) ;;
  v <- ask (λ s, embed_documents env s text) ;;
  v <- lift_result v ;;
  log (EvUpsert id) ;;
  fault <- ask (upsert_fault env) ;;
  lift_fault fault ;;
  λ s, (inr tt,
        {| points := <[id := {| sp_payload := {| page_content := Some text;
                                                 metadata := Some meta |};
                                sp_vector := v |}]> (points s);
           trace := trace s |}).

(** [client.chat.completions.create(...).choices[0].message.content] *)
Definition chat_completions_create (req : ChatRequest) : M string :=
  log (EvChatCompletion req) ;;
  r <- ask (λ s, chat_completion env s req) ;;
  lift_result r.

Definition print (msg : string) : M unit := log (EvPrint msg).

(** *** 2. AI feedback *)

Definition dq : string := String "034"%char EmptyString.
Definition quoted (s : string) : string := dq +:+ s +:+ dq.

Definition feedback_system_prompt : string :=
"
You are a compassionate AI trained in CBT, Stoic philosophy, and emotional intelligence.
The user will input a personal journal entry.

Your task:
1. Detect their mood
2. Analyze emotional clarity and articulation
3. Offer 1 insight using CBT or Stoic wisdom
4. Suggest 1 small action for tomorrow

Respond in this JSON format:
{
  " +:+ quoted "mood" +:+ ": " +:+ quoted "..." +:+ ",
  " +:+ quoted "clarityScore" +:+ ": 0-10,
  " +:+ quoted "summary" +:+ ": " +:+ quoted "..." +:+ ",
  " +:+ quoted "insight" +:+ ": " +:+ quoted "..." +:+ ",
  " +:+ quoted "suggestedAction" +:+ ": " +:+ quoted "..." +:+ "
}
".

Definition get_ai_feedback (journal_text : string) : M string :=
  let system_prompt := feedback_system_prompt in
  chat_completions_create
    {| req_model := "gpt-4";
       req_temperature := (5 # 10)%Q;
       req_max_tokens := None;
       req_system := system_prompt;
       req_user := journal_text |}.

(** *** 3. Store journal entry *)

Definition store_journal_entry (user_id journal_text : string) : M string :=
  point_id <- ask (uuid4 env) ;;
  now <- ask (time_now env) ;;
  add_texts journal_text
    {| md_user_id := Some user_id;
       md_timestamp := Some (PyInt now);
       md_type := Some "journal" |}
    point_id ;;
  ret point_id.

(** *** 4. Retrieve relevant journal entries for a user *)

(** [x.payload.get('metadata', {}).get('timestamp', 0)] *)
Definition timestamp_value (x : PointRecord) : pyval :=
  default (PyInt 0) (metadata (payload x) ≫= md_timestamp).

(** The integer that ranks an entry when the timestamps are integers. *)
Definition timestamp_key (x : PointRecord) : Z :=
  Py.int_of (timestamp_value x).

(** [sorted(all_user_entries, key=lambda x: ..., reverse=True)] *)
Definition sorted_by_timestamp (all_user_entries : list PointRecord)
  : M (list PointRecord) :=
  match Py.sorted_by_key_reverse timestamp_value all_user_entries with
  | Some ranked => ret ranked
  | None =>
      raise (TypeError (comparison_error env (timestamp_value <$> all_user_entries)))
  end.

(** [[entry.payload.get('page_content', '') for entry in recent_entries
      if entry.payload.get('page_content')]] *)
Definition entry_texts (recent_entries : list PointRecord) : list string :=
  (λ entry, default EmptyString (page_content (payload entry)))
    <$> filter (λ entry, Py.truthy (page_content (payload entry))) recent_entries.

(** What the [except] branch returns when the timestamps are integers (or
    absent): the texts of the most recent entries that carry one. *)
Definition recent_texts (all_user_entries : list PointRecord) (limit : Z)
  : list string :=
  entry_texts (Py.slice_to limit (Py.sorted_reverse timestamp_key all_user_entries)).

Definition get_relevant_entries (user_id query : string) (limit : Z)
  : M (list string) :=
  all_user_entries <- qdrant_scroll (journal_filter user_id) SCROLL_LIMIT ;;
  if decide (all_user_entries = []) then ret []
  else
    try_except
      (results <- similarity_search query
                    (Z.min limit (Z.of_nat (length all_user_entries)))
                    (journal_filter user_id) ;;
       ret (doc_page_content <$> results))
      (λ e,
        print ("Search error: " +:+ exn_msg e) ;;
        ranked <- sorted_by_timestamp all_user_entries ;;
        let recent_entries := Py.slice_to limit ranked in
        ret (entry_texts recent_entries)).

(** *** 5. Personality analysis *)

Definition NOT_ENOUGH_ENTRIES : string :=
  "I don't have enough journal entries from you yet to provide personalized insights. Please write a few more journal entries first!".

Definition nl : string := String "010"%char EmptyString.

Definition CONTEXT_SEPARATOR : string := nl +:+ nl +:+ "---" +:+ nl +:+ nl.

Definition personality_system_prompt (journal_context : string) : string :=
"
You are an AI psychologist and behavioral analyst with expertise in personality psychology, CBT, and emotional intelligence.

You have access to the user's journal entries below. Based on these entries, you can understand their:
- Personality patterns and traits
- Emotional responses and triggers
- Behavioral patterns
- Coping mechanisms
- Growth areas and strengths
- Recurring themes in their life

JOURNAL ENTRIES:
" +:+ journal_context +:+ "

Now the user is asking you a question about themselves. Your task:
1. Analyze their personality and behavioral patterns from the journal entries
2. Identify relevant patterns that relate to their question
3. Provide personalized insights and suggestions
4. Be compassionate, specific, and actionable

Answer their question based on what you observe in their writing patterns and experiences.
".

Definition analyze_personality_and_respond (user_id user_question : string)
  : M string :=
  relevant_entries <- get_relevant_entries user_id user_question 8 ;;
  if decide (relevant_entries = []) then ret NOT_ENOUGH_ENTRIES
  else
    let journal_context := Py.join CONTEXT_SEPARATOR relevant_entries in
    let system_prompt := personality_system_prompt journal_context in
    chat_completions_create
      {| req_model := "gpt-4";
         req_temperature := (7 # 10)%Q;
         req_max_tokens := Some 800;
         req_system := system_prompt;
         req_user := user_question |}.

End Pipeline.

(** ** Notions used to state the properties *)

(** The number of journal-kind entries owned by a user. *)
Definition entryCount (user_id : string) (pts : gmap string StoredPoint) : nat :=
  length (matching_records (journal_filter user_id) pts).

(** What step 1 of the retrieval fetches for a user. *)
Definition fetched (user_id : string) (pts : gmap string StoredPoint)
  : list PointRecord :=
  take SCROLL_LIMIT (matching_records (journal_filter user_id) pts).



(** ... and at most [k] of them. *)
Definition index_honours_k (env : Env) : Prop :=
  ∀ s v f k docs, index_search env s v f k = inr docs →
    0 ≤ k → Z.of_nat (length docs) ≤ k.

(** Calls that reach a collaborator (everything but [print]). *)
Definition provider_call (ev : event) : bool :=
  match ev with
  | EvPrint _ => false
  | _ => true
  end.

(** Every timestamp is an integer or is absent (then it counts as 0). *)
Definition int_timestamps (entries : list PointRecord) : Prop :=
  Forall (λ x, Py.is_int (timestamp_value x) = true) entries.

#[global] Instance int_timestamps_dec entries : Decision (int_timestamps entries).
Proof. unfold int_timestamps. apply _. Defined.

Definition completion_call (ev : event) : bool :=
  match ev with
  | EvChatCompletion _ => true
  | _ => false
  end.

Definition has_newline (s : string) : Prop :=
  "010"%char ∈ String.list_ascii_of_string s.

#[global] Instance has_newline_dec s : Decision (has_newline s).
Proof. unfold has_newline. apply _. Defined.

(** The texts of a list of entries, an entry without a text (the key is
    missing or holds the empty string) being skipped. *)
Definition texts_of (entries : list PointRecord) : list string :=
  omap (λ entry, match page_content (payload entry) with
                 | Some t => if decide (t = EmptyString) then None else Some t
                 | None => None
                 end) entries.

(** The spec's fallback, in its words: sort the fetched entries by timestamp
    descending, take the first [limit], return their texts, skipping an entry
    without text. *)
Definition spec_fallback (entries : list PointRecord) (limit : Z) : list string :=
  texts_of (take (Z.to_nat limit) (Py.sorted_reverse timestamp_key entries)).

(** A text that can be parsed as the JSON object of the feedback schema has
    an opening brace as its first non-blank character. *)
Fixpoint starts_json_object (s : string) : bool :=
  match s with
  | EmptyString => false
  | String c s' =>
      if decide (c = " "%char ∨ c = "010"%char ∨ c = "009"%char ∨ c = "013"%char)
      then starts_json_object s'
      else bool_decide (c = "{"%char)
  end.

(** ** Concrete collections and collaborators *)

Module Scenario.

Definition entry (user_id : string) (ts : Z) (text : string) : StoredPoint :=
  {| sp_payload :=
       {| page_content := Some text;
          metadata := Some {| md_user_id := Some user_id;
                              md_timestamp := Some (PyInt ts);
                              md_type := Some "journal" |} |};
     sp_vector := [] |}.

(** An entry of [user_id] whose payload carries no text. *)
Definition textless (user_id : string) (ts : Z) : StoredPoint :=
  {| sp_payload :=
       {| page_content := None;
          metadata := Some {| md_user_id := Some user_id;
                              md_timestamp := Some (PyInt ts);
                              md_type := Some "journal" |} |};
     sp_vector := [] |}.

(** Three entries of [u1] at t = 100, 200, 300 and one entry of [u2]. *)
Definition points3 : gmap string StoredPoint :=
  <["p1" := entry "u1" 100 "I felt anxious before my presentation"]>
  (<["p2" := entry "u1" 200 "I went for a calm walk by the lake"]>
  (<["p3" := entry "u1" 300 "I slept well"]>
  (<["q1" := entry "u2" 250 "I am furious about my coworker."]> ∅))).

(** Two entries with text and, more recent than both, two without. *)
Definition points_textless : gmap string StoredPoint :=
  <["p1" := entry "u1" 100 "first"]>
  (<["p2" := entry "u1" 200 "second"]>
  (<["p3" := textless "u1" 300]>
  (<["p4" := textless "u1" 400]> ∅))).

Definition start (pts : gmap string StoredPoint) : State :=
  {| points := pts; trace := [] |}.

Definition state3 : State := start points3.

(** A scrolled entry of [u1] whose metadata has no timestamp, and two dated ones. *)
Definition undated : PointRecord :=
  {| rec_id := "p0";
     payload := {| page_content := Some "undated";
                   metadata := Some {| md_user_id := Some "u1";
                                       md_timestamp := None;
                                       md_type := Some "journal" |} |} |}.

Definition dated (id : string) (ts : Z) (text : string) : PointRecord :=
  {| rec_id := id; payload := sp_payload (entry "u1" ts text) |}.

Definition doc_of (r : PointRecord) : option Document :=
  match page_content (payload r) with
  | Some t => Some {| doc_page_content := t; doc_metadata := metadata (payload r) |}
  | None => None
  end.

(** An index that honours filter and [k] and ranks in scan order. *)
Definition scan_search (s : State) (f : MetaFilter) (k : Z) : list Document :=
  take (Z.to_nat k) (omap doc_of (matching_records f (points s))).

(** Ids drawn in sequence: the n-th point of the collection gets [n] marks. *)
Definition next_id (s : State) : string :=
  String.string_of_list_ascii (replicate (S (size (points s))) "#"%char).

(** The interpreter's message for a [None] key met by an integer one. *)
Definition NOT_COMPARABLE : string :=
  "'<' not supported between instances of 'NoneType' and 'int'".

(** An entry of [user_id] whose timestamp is present and null. *)
Definition nulled (user_id text : string) : StoredPoint :=
  {| sp_payload :=
       {| page_content := Some text;
          metadata := Some {| md_user_id := Some user_id;
                              md_timestamp := Some PyNone;
                              md_type := Some "journal" |} |};
     sp_vector := [] |}.

(** An entry with a null timestamp beside a dated one. *)
Definition points_null : gmap string StoredPoint :=
  <["p1" := entry "u1" 100 "dated"]> (<["p2" := nulled "u1" "null"]> ∅).

(** An entry without timestamp beside one from before 1970. *)
Definition points_early : gmap string StoredPoint :=
  <["p1" := {| sp_payload :=
                 {| page_content := Some "undated";
                    metadata := Some {| md_user_id := Some "u1";
                                        md_timestamp := None;
                                        md_type := Some "journal" |} |};
               sp_vector := [] |}]>
  (<["p2" := entry "u1" (-5) "early"]> ∅).

Definition healthy : Env :=
  {| comparison_error := λ _, NOT_COMPARABLE;
     uuid4 := next_id;
     time_now := λ s, 1700000000 + Z.of_nat (length (trace s));
     scroll_fault := λ _, None;
     embed_query := λ _ _, inr [];
     index_search := λ s _ f k, inr (scan_search s f k);
     embed_documents := λ _ _, inr [];
     upsert_fault := λ _, None;
     chat_completion := λ _ _, inr "Take a short walk tomorrow." |}.

(** The search backend is down. *)
Definition search_down : Env :=
  {| comparison_error := λ _, NOT_COMPARABLE;
     uuid4 := next_id;
     time_now := λ _, 1700000000;
     scroll_fault := λ _, None;
     embed_query := λ _ _, inr [];
     index_search := λ _ _ _ _, inl (IndexError "connection refused");
     embed_documents := λ _ _, inr [];
     upsert_fault := λ _, None;
     chat_completion := λ _ _, inr "Take a short walk tomorrow." |}.

(** Every call draws the same id. *)
Definition same_id : Env :=
  {| comparison_error := λ _, NOT_COMPARABLE;
     uuid4 := λ _, "id";
     time_now := λ _, 1700000000;
     scroll_fault := λ _, None;
     embed_query := λ _ _, inr [];
     index_search := λ _ _ _ _, inl (IndexError "connection refused");
     embed_documents := λ _ _, inr [];
     upsert_fault := λ _, None;
     chat_completion := λ _ _, inr "Take a short walk tomorrow." |}.

(** The embedding provider is down. *)
Definition embedding_down : Env :=
  {| comparison_error := λ _, NOT_COMPARABLE;
     uuid4 := next_id;
     time_now := λ _, 1700000000;
     scroll_fault := λ _, None;
     embed_query := λ _ _, inl (EmbeddingError "rate limited");
     index_search := λ s _ f k, inr (scan_search s f k);
     embed_documents := λ _ _, inl (EmbeddingError "rate limited");
     upsert_fault := λ _, None;
     chat_completion := λ _ _, inr "Take a short walk tomorrow." |}.

(** The three entries of [u1] after [text] has been stored twice for [u1]. *)
Definition stored_twice (env : Env) (text : string) : State :=
  (store_journal_entry env "u1" text
     (store_journal_entry env "u1" text state3).2).2.

End Scenario.

(** ** The paths through [get_relevant_entries] *)

Section Paths.

Context (env : Env) (user_id query : string) (limit : Z) (s : State).

Definition after_scroll : State :=
  logged (EvScroll (journal_filter user_id) SCROLL_LIMIT) s.

Definition after_embed : State := logged (EvEmbedQuery query) after_scroll.

Definition search_k : Z :=
  Z.min limit (Z.of_nat (length (fetched user_id (points s)))).

Definition after_search : State :=
  logged (EvSearch (journal_filter user_id) search_k) after_embed.

Definition after_print (e : exn) (s' : State) : State :=
  logged (EvPrint ("Search error: " +:+ exn_msg e)) s'.

(** The outcome of the [except] branch over the fetched entries: the texts of
    the slice of the sorted list, or the [TypeError] of the sort. *)
Definition fallback_result (entries : list PointRecord) : exn + list string :=
  match Py.sorted_by_key_reverse timestamp_value entries with
  | Some ranked => inr (entry_texts (Py.slice_to limit ranked))
  | None => inl (TypeError (comparison_error env (timestamp_value <$> entries)))
  end.

(** The five ways a retrieval can go, with the result and the final state. *)
Inductive retrieval : (exn + list string) * State → Prop :=
| scan_failed e :
    scroll_fault env after_scroll = Some e →
    retrieval (inl e, after_scroll)
| no_entries :
    scroll_fault env after_scroll = None →
    fetched user_id (points s) = [] →
    retrieval (inr [], after_scroll)
| semantic v docs :
    scroll_fault env after_scroll = None →
    fetched user_id (points s) ≠ [] →
    embed_query env after_embed query = inr v →
    index_search env after_search v (journal_filter user_id) search_k = inr docs →
    retrieval (inr (doc_page_content <$> docs), after_search)
| fallback_embedding e :
    scroll_fault env after_scroll = None →
    fetched user_id (points s) ≠ [] →
    embed_query env after_embed query = inl e →
    retrieval (fallback_result (fetched user_id (points s)),
               after_print e after_embed)
| fallback_search v e :
    scroll_fault env after_scroll = None →
    fetched user_id (points s) ≠ [] →
    embed_query env after_embed query = inr v →
    index_search env after_search v (journal_filter user_id) search_k = inl e →
    retrieval (fallback_result (fetched user_id (points s)),
               after_print e after_search).

End Paths.

(** The calls a retrieval for [user_id] may add to the trace. *)
Definition retrieval_event (user_id query : string) (ev : event) : Prop :=
  match ev with
  | EvScroll f n => f = journal_filter user_id ∧ n = SCROLL_LIMIT
  | EvEmbedQuery q => q = query
  | EvSearch f _ => f = journal_filter user_id
  | EvPrint _ => True
  | _ => False
  end.

(** The payload that [store_journal_entry] writes. *)
Definition journal_payload (user_id journal_text : string) (now : Z) : Payload :=
  {| page_content := Some journal_text;
     metadata := Some {| md_user_id := Some user_id;
                         md_timestamp := Some (PyInt now);
                         md_type := Some "journal" |} |}.

(** What follows an entry in a joined context: nothing, or a line feed (the
    first character of the separator). *)
Definition boundary (r : string) : Prop :=
  r = EmptyString ∨ ∃ r', r = String "010"%char r'.

(** The part of a joined context after its first entry. *)
Definition join_rest (l : list string) : string :=
  match l with
  | [] => EmptyString
  | _ => CONTEXT_SEPARATOR +:+ Py.join CONTEXT_SEPARATOR l
  end.

(** An entry with the timestamp that the sort key gives it: 0 when the
    metadata has none. *)
Definition with_timestamp_default (x : PointRecord) : PointRecord :=
  {| rec_id := rec_id x;
     payload :=
       {| page_content := page_content (payload x);
          metadata :=
            Some match metadata (payload x) with
                 | Some m => {| md_user_id := md_user_id m;
                                md_timestamp :=
                                  Some (default (PyInt 0) (md_timestamp m));
                                md_type := md_type m |}
                 | None => {| md_user_id := None;
                              md_timestamp := Some (PyInt 0);
                              md_type := None |}
                 end |} |}.

(** ** The console: string methods, the chat and the menu *)

Module PyStr.

Definition code (c : ascii) : Z := Z.of_N (N_of_ascii c).

(** [str.isspace] on an ASCII character: tab to carriage return, the four
    separators 28 to 31 and the blank. *)
Definition isspace (c : ascii) : bool :=
  bool_decide (9 ≤ code c ≤ 13 ∨ 28 ≤ code c ≤ 32).

Fixpoint lstrip (s : string) : string :=
  match s with
  | EmptyString => EmptyString
  | String c s' => if isspace c then lstrip s' else s
  end.

Fixpoint rstrip (s : string) : string :=
  match s with
  | EmptyString => EmptyString
  | String c s' =>
      match rstrip s' with
      | EmptyString => if isspace c then EmptyString else String c EmptyString
      | r => String c r
      end
  end.

(** [s.strip()] *)
Definition strip (s : string) : string := rstrip (lstrip s).

Definition lower_char (c : ascii) : ascii :=
  if bool_decide (65 ≤ code c ≤ 90) then ascii_of_N (N_of_ascii c + 32) else c.

(** [s.lower()] *)
Fixpoint lower (s : string) : string :=
  match s with
  | EmptyString => EmptyString
  | String c s' => String (lower_char c) (lower s')
  end.

(** [c * n] for a one-character string [c] *)
Definition times (c : ascii) (n : nat) : string :=
  String.string_of_list_ascii (replicate n c).

(** The strings on which [strip] and [lower] above are the Python methods:
    texts of ASCII characters only (strings hold the UTF-8 bytes of a text;
    Python also strips and lowers characters outside ASCII). *)
Definition is_ascii (s : string) : Prop :=
  Forall (λ c, code c < 128) (String.list_ascii_of_string s).

#[global] Instance is_ascii_dec s : Decision (is_ascii s).
Proof. unfold is_ascii. apply _. Defined.

End PyStr.

(** How a function that reads the console ends: it returns, leaving the rest
    of the input unread, or [input()] raises [EOFError] at the end of the
    input (no caller catches it). *)
Inductive console_end :=
| Returned (stdin : list string)
| EOFError.

Definition QUIT_WORDS : list string := ["quit"; "exit"; "bye"].

Section Console.

Context (env : Env).

(** *** 6. Interactive chat mode *)

(** The [while True] loop of [start_personality_chat]; every iteration reads
    one line.  The prompt of [input] is not recorded in the trace. *)
Fixpoint chat_loop (user_id : string) (stdin : list string) : M console_end :=
  match stdin with
  | [] => ret EOFError
  | line :: stdin' =>
      let user_question := PyStr.strip line in
      if decide (PyStr.lower user_question ∈ QUIT_WORDS) then
        print "🤖 Take care! Keep journaling for better insights!" ;;
        ret (Returned stdin')
      else if decide (user_question = EmptyString) then
        chat_loop user_id stdin'
      else
        print (nl +:+ "🤖 Analyzing your patterns...") ;;
        try_except
          (ai_response <- analyze_personality_and_respond env user_id user_question ;;
           print (nl +:+ "AI Analyst: " +:+ ai_response +:+ nl))
          (λ e,
            print ("Sorry, I encountered an error: " +:+ exn_msg e) ;;
            print ("Please try asking your question differently." +:+ nl)) ;;
        chat_loop user_id stdin'
  end.

Definition start_personality_chat (user_id : string) (stdin : list string)
  : M console_end :=
  print (nl +:+ "🧠 Welcome to your Personal Behavior Analysis Chat!") ;;
  print "Ask me anything about your personality, behavior patterns, or emotional tendencies." ;;
  print "I'll analyze your journal entries to give you personalized insights." ;;
  print ("Type 'quit' to exit." +:+ nl) ;;
  chat_loop user_id stdin.

(** *** 7. Main menu *)

(** The loop that reads the lines of an entry up to the first empty line;
    [None] when the input ends before. *)
Fixpoint read_entry (lines stdin : list string)
  : option (list string * list string) :=
  match stdin with
  | [] => None
  | line :: stdin' =>
      if decide (line = EmptyString) then Some (lines, stdin')
      else read_entry (lines ++ [line]) stdin'
  end.

(** The [while True] loop of [main_menu].  Every iteration reads at least one
    line, so [fuel] iterations are enough for an input of fewer than [fuel]
    lines; [None] is returned when the fuel runs out. *)
Fixpoint main_menu_loop (fuel : nat) (user_id : string) (stdin : list string)
  : M (option console_end) :=
  match fuel with
  | O => ret None
  | S fuel' =>
      print (nl +:+ PyStr.times "=" 50) ;;
      print "🌟 SMART JOURNALING & PERSONALITY ANALYZER" ;;
      print (PyStr.times "=" 50) ;;
      print "1. Write a new journal entry" ;;
      print "2. Chat about my personality & behavior" ;;
      print "3. Exit" ;;
      print (PyStr.times "-" 50) ;;
      match stdin with
      | [] => ret (Some EOFError)
      | line :: stdin' =>
          let choice := PyStr.strip line in
          if decide (choice = "1") then
            print (nl +:+ "📝 Enter your journal entry (press ENTER twice to submit):" +:+ nl) ;;
            match read_entry [] stdin' with
            | None => ret (Some EOFError)
            | Some (lines, stdin'') =>
                if decide (lines = []) then
                  print "No entry provided." ;;
                  main_menu_loop fuel' user_id stdin''
                else
                  let journal_input := Py.join nl lines in
                  print (nl +:+ "🤖 GPT Feedback:" +:+ nl) ;;
                  ai_reply <- get_ai_feedback env journal_input ;;
                  print ai_reply ;;
                  print (nl +:+ "📦 Storing your journal entry...") ;;
                  journal_point_id <- store_journal_entry env user_id journal_input ;;
                  print ("✅ Stored journal with ID: " +:+ journal_point_id) ;;
                  main_menu_loop fuel' user_id stdin''
            end
          else if decide (choice = "2") then
            r <- start_personality_chat user_id stdin' ;;
            match r with
            | Returned stdin'' => main_menu_loop fuel' user_id stdin''
            | EOFError => ret (Some EOFError)
            end
          else if decide (choice = "3") then
            print "👋 Goodbye! Keep reflecting and growing!" ;;
            ret (Some (Returned stdin'))
          else
            print "❌ Invalid choice. Please select 1, 2, or 3." ;;
            main_menu_loop fuel' user_id stdin'
      end
  end.

(** [main_menu()], given the value of the environment variable [USER_ID]. *)
Definition main_menu (USER_ID : option string) (stdin : list string)
  : M (option console_end) :=
  let user_id := default "anonymous" USER_ID in
  main_menu_loop (S (length stdin)) user_id stdin.

End Console.

(** ** Notions used to state the properties of the console functions *)

(** The state after one question has been handled by the chat: the analysis
    was printed, or its failure was. *)
Definition after_turn (env : Env) (user_id user_question : string) (s : State)
  : State :=
  match analyze_personality_and_respond env user_id user_question
          (logged (EvPrint (nl +:+ "🤖 Analyzing your patterns...")) s) with
  | (inr ai_response, s') =>
      logged (EvPrint (nl +:+ "AI Analyst: " +:+ ai_response +:+ nl)) s'
  | (inl e, s') =>
      logged (EvPrint ("Please try asking your question differently." +:+ nl))
        (logged (EvPrint ("Sorry, I encountered an error: " +:+ exn_msg e)) s')
  end.

(** The questions a chat session asks: the stripped non-empty lines before
    the first quit word. *)
Fixpoint asked (stdin : list string) : list string :=
  match stdin with
  | [] => []
  | line :: stdin' =>
      if decide (PyStr.lower (PyStr.strip line) ∈ QUIT_WORDS) then []
      else if decide (PyStr.strip line = EmptyString) then asked stdin'
      else PyStr.strip line :: asked stdin'
  end.

Definition scroll_call (ev : event) : bool :=
  match ev with
  | EvScroll _ _ => true
  | _ => false
  end.

(** A call that reads or writes the collection on behalf of [user_id] only. *)
Definition scoped_to (user_id : string) (ev : event) : Prop :=
  match ev with
  | EvScroll f _ | EvSearch f _ => f = journal_filter user_id
  | _ => True
  end.

(** A text in which no line is empty: it is not empty, has no two line feeds
    in a row and neither starts nor ends with one. *)
Fixpoint lines_nonempty (after_feed : bool) (s : string) : bool :=
  match s with
  | EmptyString => negb after_feed
  | String c s' =>
      if decide (c = "010"%char) then negb after_feed && lines_nonempty true s'
      else lines_nonempty false s'
  end.

Definition well_lined (s : string) : Prop := lines_nonempty true s = true.

(** One iteration of the loop of [main_menu], the next iterations being
    [continue]. *)
Definition menu_body (env : Env) (user_id : string)
    (continue : list string → M (option console_end)) (stdin : list string)
  : M (option console_end) :=
  print (nl +:+ PyStr.times "=" 50) ;;
  print "🌟 SMART JOURNALING & PERSONALITY ANALYZER" ;;
  print (PyStr.times "=" 50) ;;
  print "1. Write a new journal entry" ;;
  print "2. Chat about my personality & behavior" ;;
  print "3. Exit" ;;
  print (PyStr.times "-" 50) ;;
  match stdin with
  | [] => ret (Some EOFError)
  | line :: stdin' =>
      let choice := PyStr.strip line in
      if decide (choice = "1") then
        print (nl +:+ "📝 Enter your journal entry (press ENTER twice to submit):" +:+ nl) ;;
        match read_entry [] stdin' with
        | None => ret (Some EOFError)
        | Some (lines, stdin'') =>
            if decide (lines = []) then
              print "No entry provided." ;;
              continue stdin''
            else
              let journal_input := Py.join nl lines in
              print (nl +:+ "🤖 GPT Feedback:" +:+ nl) ;;
              ai_reply <- get_ai_feedback env journal_input ;;
              print ai_reply ;;
              print (nl +:+ "📦 Storing your journal entry...") ;;
              journal_point_id <- store_journal_entry env user_id journal_input ;;
              print ("✅ Stored journal with ID: " +:+ journal_point_id) ;;
              continue stdin''
        end
      else if decide (choice = "2") then
        r <- start_personality_chat env user_id stdin' ;;
        match r with
        | Returned stdin'' => continue stdin''
        | EOFError => ret (Some EOFError)
        end
      else if decide (choice = "3") then
        print "👋 Goodbye! Keep reflecting and growing!" ;;
        ret (Some (Returned stdin'))
      else
        print "❌ Invalid choice. Please select 1, 2, or 3." ;;
        continue stdin'
  end.

(** What a session of [user_id] may do to a state: points are added or
    overwritten, never removed, and only with points of that user; the calls
    it adds to the trace read the collection under that user's filter. *)
Definition session_step (user_id : string) (s s' : State) : Prop :=
  dom (points s) ⊆ dom (points s') ∧
  (∀ id p, points s' !! id = Some p →
     points s !! id = Some p ∨ matches (journal_filter user_id) (sp_payload p)) ∧
  ∃ evs, trace s' = (trace s ++ evs)%list ∧ Forall (scoped_to user_id) evs.

(** The request of [get_ai_feedback]. *)
Definition feedback_request (journal_text : string) : ChatRequest :=
  {| req_model := "gpt-4";
     req_temperature := (5 # 10)%Q;
     req_max_tokens := None;
     req_system := feedback_system_prompt;
     req_user := journal_text |}.

(** The state in which the menu asks for the feedback on a typed entry: the
    menu, the prompt for the entry and the heading of the feedback have been
    printed. *)
Definition entry_typed (s : State) : State :=
  logged (EvPrint (nl +:+ "🤖 GPT Feedback:" +:+ nl))
    (logged (EvPrint (nl +:+ "📝 Enter your journal entry (press ENTER twice to submit):" +:+ nl))
       (logged (EvPrint (PyStr.times "-" 50))
          (logged (EvPrint "3. Exit")
             (logged (EvPrint "2. Chat about my personality & behavior")
                (logged (EvPrint "1. Write a new journal entry")
                   (logged (EvPrint (PyStr.times "=" 50))
                      (logged (EvPrint "🌟 SMART JOURNALING & PERSONALITY ANALYZER")
                         (logged (EvPrint (nl +:+ PyStr.times "=" 50)) s)))))))).

(** What follows an entry without empty line in a joined context: nothing,
    or two line feeds (the start of the separator). *)
Definition blank_line_boundary (r : string) : Prop :=
  r = EmptyString ∨ ∃ r', r = String "010"%char (String "010"%char r').

(** *** 1. Bootstrap: the collection *)

Inductive Distance := Cosine | Euclid | Dot | Manhattan.

(** A collection of the Qdrant server, with the vector parameters it was
    created with. *)
Record CollectionInfo := {
  c_name : string;
  c_size : Z;
  c_distance : Distance;
}.

Definition COLLECTION_NAME : string := "journals".
Definition EMBEDDING_DIM : Z := 1536.

(** The module-level [if COLLECTION_NAME not in [c.name for c in collections]:
    qdrant.create_collection(...)], as a function of the collections of the
    server. *)
Definition ensure_collection (collections : list CollectionInfo)
  : list CollectionInfo :=
  if decide (COLLECTION_NAME ∈ c_name <$> collections) then collections
  else collections ++ [{| c_name := COLLECTION_NAME;
                          c_size := EMBEDDING_DIM;
                          c_distance := Cosine |}].

(** From [s] to [s'] nothing happened but printing: the collection is the
    same and no collaborator was called. *)
Definition only_printed (s s' : State) : Prop :=
  points s' = points s ∧
  ∃ evs, trace s' = (trace s ++ evs)%list ∧ List.filter provider_call evs = [].

(** Goals about the concrete scenarios are settled by running the model. *)
Ltac by_evaluation := vm_compute; first [reflexivity | discriminate | lia | done].
Ltac by_decision :=
  match goal with |- ?P => apply (bool_decide_unpack P); vm_compute; exact I end.

(** * Properties *)

(** ** The Python built-ins *)

Section PyFacts.

Context {A : Type} (key : A → Z).

Lemma insert_desc_perm x l : Py.insert_desc key x l ≡ₚ x :: l.
Proof.
  induction l as [|y l IH]; simpl; [done|].
  case_decide; [|done].
  rewrite IH. apply Permutation_swap.
Qed.

Lemma sorted_reverse_perm l : Py.sorted_reverse key l ≡ₚ l.
Proof.
  induction l as [|x l IH]; simpl; [done|].
  by rewrite insert_desc_perm, IH.
Qed.

Lemma length_sorted_reverse l : length (Py.sorted_reverse key l) = length l.
Proof. by rewrite sorted_reverse_perm. Qed.

Lemma insert_desc_sorted x l :
  StronglySorted (Py.descending key) l → StronglySorted (Py.descending key) (Py.insert_desc key x l).
Proof.
  induction 1 as [|y l Hl IH Hy]; simpl.
  - repeat constructor.
  - case_decide as Hlt.
    + constructor; [done|].
      rewrite insert_desc_perm. constructor; [unfold Py.descending; lia | done].
    + constructor; [by constructor|].
      constructor; [unfold Py.descending; lia|].
      eapply Forall_impl; [exact Hy|]. unfold Py.descending. intros; lia.
Qed.

Lemma sorted_reverse_sorted l : StronglySorted (Py.descending key) (Py.sorted_reverse key l).
Proof.
  induction l; simpl; [constructor | by apply insert_desc_sorted].
Qed.

(** Stability: an element is placed in front of the ones that do not have a
    greater key. *)
Lemma insert_desc_front x l :
  Forall (λ y, key y ≤ key x) l → Py.insert_desc key x l = x :: l.
Proof.
  destruct 1 as [|y l Hy _]; simpl; [done|].
  case_decide; [lia | done].
Qed.

Lemma insert_desc_back x l :
  Forall (λ y, key x < key y) l → Py.insert_desc key x l = (l ++ [x])%list.
Proof.
  induction 1 as [|y l Hy _ IH]; simpl; [done|].
  case_decide; [by rewrite IH | lia].
Qed.

Lemma insert_desc_app_back x y l :
  Forall (λ z, key y < key z) l → key y ≤ key x →
  Py.insert_desc key x (l ++ [y])%list = (Py.insert_desc key x l ++ [y])%list.
Proof.
  induction 1 as [|z l Hz _ IH]; intros Hxy; simpl.
  - case_decide; [lia | done].
  - case_decide; [by rewrite IH | done].
Qed.

Lemma slice_to_nonneg stop (l : list A) :
  0 ≤ stop → Py.slice_to stop l = take (Z.to_nat stop) l.
Proof. intros. unfold Py.slice_to. by case_decide. Qed.

Lemma slice_to_negative stop (l : list A) :
  stop < 0 → Py.slice_to stop l = take (length l - Z.to_nat (- stop)) l.
Proof. intros. unfold Py.slice_to. case_decide; [lia | done]. Qed.

Lemma slice_to_prefix stop (l : list A) : Py.slice_to stop l `prefix_of` l.
Proof. unfold Py.slice_to. case_decide; apply prefix_take. Qed.

Lemma length_slice_to_nonneg stop (l : list A) :
  0 ≤ stop → Z.of_nat (length (Py.slice_to stop l)) ≤ Z.min stop (Z.of_nat (length l)).
Proof. intros. rewrite slice_to_nonneg, length_take by done. lia. Qed.

End PyFacts.

(** ** The collection *)




Lemma length_fetched u pts : (length (fetched u pts) ≤ entryCount u pts)%nat.
Proof. unfold fetched, entryCount. rewrite length_take. lia. Qed.

(** ** Running the pipeline *)

Section RunFacts.

Context (env : Env).

Lemma qdrant_scroll_run f n s :
  qdrant_scroll env f n s =
    match scroll_fault env (logged (EvScroll f n) s) with
    | Some e => (inl e, logged (EvScroll f n) s)
    | None => (inr (take n (matching_records f (points s))), logged (EvScroll f n) s)
    end.
Proof.
  unfold qdrant_scroll, bind, log, ask, lift_fault. simpl.
  by destruct (scroll_fault env _).
Qed.

Lemma similarity_search_run q k f s :
  similarity_search env q k f s =
    match embed_query env (logged (EvEmbedQuery q) s) q with
    | inl e => (inl e, logged (EvEmbedQuery q) s)
    | inr v =>
        (index_search env (logged (EvSearch f k) (logged (EvEmbedQuery q) s)) v f k,
         logged (EvSearch f k) (logged (EvEmbedQuery q) s))
    end.
Proof.
  unfold similarity_search, bind, log, ask, lift_result. simpl.
  destruct (embed_query env _ q); simpl; [done|].
  by destruct (index_search env _ _ f k).
Qed.

Lemma chat_completions_create_run req s :
  chat_completions_create env req s =
    (chat_completion env (logged (EvChatCompletion req) s) req,
     logged (EvChatCompletion req) s).
Proof.
  unfold chat_completions_create, bind, log, ask, lift_result. simpl.
  by destruct (chat_completion env _ req).
Qed.

Lemma sorted_by_timestamp_run entries s :
  sorted_by_timestamp env entries s =
    match Py.sorted_by_key_reverse timestamp_value entries with
    | Some ranked => (inr ranked, s)
    | None => (inl (TypeError (comparison_error env (timestamp_value <$> entries))), s)
    end.
Proof.
  unfold sorted_by_timestamp.
  by destruct (Py.sorted_by_key_reverse timestamp_value entries).
Qed.

Lemma get_relevant_entries_run u q limit s :
  get_relevant_entries env u q limit s =
    match scroll_fault env (after_scroll u s) with
    | Some e => (inl e, after_scroll u s)
    | None =>
        if decide (fetched u (points s) = []) then (inr [], after_scroll u s)
        else
          match similarity_search env q (search_k u limit s) (journal_filter u)
                  (after_scroll u s) with
          | (inr docs, s2) => (inr (doc_page_content <$> docs), s2)
          | (inl e, s2) =>
              (fallback_result env limit (fetched u (points s)), after_print e s2)
          end
    end.
Proof.
  unfold get_relevant_entries, bind at 1. rewrite qdrant_scroll_run.
  fold (after_scroll u s).
  destruct (scroll_fault env (after_scroll u s)) as [e|]; [done|].
  change (take SCROLL_LIMIT _) with (fetched u (points s)).
  case_decide; [done|].
  unfold try_except, bind at 1. fold (search_k u limit s).
  destruct (similarity_search env q _ _ _) as [[e|docs] s2]; [|done].
  unfold bind, print, log. rewrite sorted_by_timestamp_run.
  unfold fallback_result, after_print.
  by destruct (Py.sorted_by_key_reverse timestamp_value _).
Qed.

(** Every run of [get_relevant_entries] follows one of the five paths. *)
Lemma get_relevant_entries_paths u q limit s :
  retrieval env u q limit s (get_relevant_entries env u q limit s).
Proof.
  rewrite get_relevant_entries_run.
  destruct (scroll_fault env (after_scroll u s)) as [e|] eqn:Hscan.
  { by apply scan_failed. }
  case_decide as Hnil.
  { by apply no_entries. }
  rewrite similarity_search_run.
  fold (after_embed u q s).
  destruct (embed_query env (after_embed u q s) q) as [e|v] eqn:Hembed.
  { by apply fallback_embedding. }
  fold (after_search u q limit s).
  destruct (index_search env _ v _ _) as [e|docs] eqn:Hsearch.
  - by eapply fallback_search.
  - by eapply semantic.
Qed.

End RunFacts.

(** ** Sorting by a JSON key *)

Lemma insert_desc_by_perm {A} (lt : A → A → bool) x l :
  Py.insert_desc_by lt x l ≡ₚ x :: l.
Proof.
  induction l as [|y l IH]; simpl; [done|].
  destruct (lt x y); [|done]. rewrite IH. apply Permutation_swap.
Qed.

Lemma sorted_reverse_by_perm {A} (lt : A → A → bool) l :
  Py.sorted_reverse_by lt l ≡ₚ l.
Proof.
  induction l as [|x l IH]; simpl; [done|].
  by rewrite insert_desc_by_perm, IH.
Qed.

Lemma sorted_reverse_short {A} (key : A → Z) l :
  (length l ≤ 1)%nat → Py.sorted_reverse key l = l.
Proof. destruct l as [|x [|y l]]; simpl; [done|done|lia]. Qed.

Lemma forallb_Forall {A} (f : A → bool) l :
  forallb f l = true ↔ Forall (λ x, f x = true) l.
Proof.
  induction l as [|x l IH]; simpl; [by split|].
  rewrite andb_true_iff, Forall_cons. by rewrite IH.
Qed.

(** A sort that returns has permuted its list. *)
Lemma sorted_by_key_reverse_perm {A} (key : A → pyval) l ranked :
  Py.sorted_by_key_reverse key l = Some ranked → ranked ≡ₚ l.
Proof.
  unfold Py.sorted_by_key_reverse. case_decide; [by intros [= <-]|].
  destruct (forallb _ l); [intros [= <-]; apply sorted_reverse_perm|].
  destruct (forallb _ l); [intros [= <-]; apply sorted_reverse_by_perm|done].
Qed.

(** With integer keys the sort returns: descending and stable. *)
Lemma sorted_by_key_reverse_int {A} (key : A → pyval) l :
  Forall (λ x, Py.is_int (key x) = true) l →
  Py.sorted_by_key_reverse key l
    = Some (Py.sorted_reverse (λ x, Py.int_of (key x)) l).
Proof.
  intros Hint. unfold Py.sorted_by_key_reverse. case_decide.
  - by rewrite sorted_reverse_short.
  - apply forallb_Forall in Hint. by rewrite Hint.
Qed.

(** ** Retrieval *)

Lemma comprehension_texts_of l : entry_texts l = texts_of l.
Proof.
  unfold entry_texts. induction l as [|r l IH]; [done|].
  rewrite filter_cons. unfold texts_of in *. simpl.
  case_decide as Htruthy; simpl;
    destruct (page_content (payload r)) as [t|]; simpl in *;
    try case_decide; subst; simpl; try tauto;
    first [exact IH | f_equal; exact IH].
Qed.

Lemma recent_texts_texts_of entries limit :
  recent_texts entries limit =
  texts_of (Py.slice_to limit (Py.sorted_reverse timestamp_key entries)).
Proof. unfold recent_texts. apply comprehension_texts_of. Qed.

Lemma length_texts_of l : (length (texts_of l) ≤ length l)%nat.
Proof.
  unfold texts_of. induction l as [|r l IH]; simpl in *; [done|].
  destruct (page_content (payload r)) as [t|]; [case_decide|]; simpl;
    first [apply le_n_S, IH | apply le_S, IH].
Qed.


Lemma recent_texts_nonneg entries limit :
  0 ≤ limit → recent_texts entries limit = spec_fallback entries limit.
Proof.
  intros. unfold spec_fallback. by rewrite recent_texts_texts_of, slice_to_nonneg.
Qed.

(** The fallback over entries with integer (or absent) timestamps returns. *)
Lemma fallback_result_int env limit entries :
  int_timestamps entries →
  fallback_result env limit entries = inr (recent_texts entries limit).
Proof.
  intros Hint. unfold fallback_result.
  by rewrite (sorted_by_key_reverse_int timestamp_value entries Hint).
Qed.

(** What a fallback that returns has returned. *)
Lemma fallback_result_inr env limit entries texts :
  fallback_result env limit entries = inr texts →
  ∃ ranked, Py.sorted_by_key_reverse timestamp_value entries = Some ranked ∧
            ranked ≡ₚ entries ∧
            texts = texts_of (Py.slice_to limit ranked).
Proof.
  unfold fallback_result.
  destruct (Py.sorted_by_key_reverse timestamp_value entries) as [ranked|] eqn:Hs;
    [|done].
  intros [= <-]. exists ranked. split; [done|].
  split; [by apply (sorted_by_key_reverse_perm timestamp_value) | apply comprehension_texts_of].
Qed.


Lemma length_fallback_result env limit entries texts :
  fallback_result env limit entries = inr texts →
  (length texts ≤ length entries)%nat ∧
  (0 ≤ limit → Z.of_nat (length texts) ≤ limit).
Proof.
  intros (ranked & _ & Hperm & ->)%fallback_result_inr.
  pose proof (length_texts_of (Py.slice_to limit ranked)) as Htexts.
  pose proof (prefix_length _ _ (slice_to_prefix limit ranked)) as Hslice.
  pose proof (Permutation_length Hperm) as Hlen. split; [lia|].
  intros Hlimit. pose proof (length_slice_to_nonneg limit ranked Hlimit). lia.
Qed.


(** A retrieval leaves the collection alone and only adds its own calls. *)
Lemma retrieval_trace env u q limit s r s' :
  retrieval env u q limit s (r, s') →
  points s' = points s ∧
  ∃ evs, trace s' = (trace s ++ evs)%list ∧ Forall (retrieval_event u q) evs.
Proof.
  inversion 1; subst; (split; [done|]);
    unfold after_print, after_search, after_embed, after_scroll, logged; simpl;
    rewrite <- ?(assoc_L (++)); eexists; (split; [reflexivity|]);
    repeat constructor.
Qed.


(** What [get_relevant_entries] does once the similarity-search step has
    raised: it runs the fallback over the fetched entries. *)
Lemma get_relevant_entries_fallback env u q limit s e s2 :
  scroll_fault env (after_scroll u s) = None →
  fetched u (points s) ≠ [] →
  similarity_search env q (search_k u limit s) (journal_filter u) (after_scroll u s)
    = (inl e, s2) →
  get_relevant_entries env u q limit s =
    (fallback_result env limit (fetched u (points s)), after_print e s2).
Proof.
  intros Hscan Hne Hsim. rewrite get_relevant_entries_run, Hscan.
  case_decide; [done|]. by rewrite Hsim.
Qed.

Lemma get_relevant_entries_semantic env u q limit s docs s2 :
  scroll_fault env (after_scroll u s) = None →
  fetched u (points s) ≠ [] →
  similarity_search env q (search_k u limit s) (journal_filter u) (after_scroll u s)
    = (inr docs, s2) →
  get_relevant_entries env u q limit s = (inr (doc_page_content <$> docs), s2).
Proof.
  intros Hscan Hne Hsim. rewrite get_relevant_entries_run, Hscan.
  case_decide; [done|]. by rewrite Hsim.
Qed.

(** C2, as stated, fails in two ways.  For a negative limit: with three
    entries and the search backend down, [limit = -1] yields the two most
    recent texts, where the first [limit] entries of the sorted list are
    none.  And the fallback can raise: with two entries, one of them with a
    null timestamp, the sort of the handler raises [TypeError], which
    reaches the caller. *)
Lemma fallback_negative_limit_counterexample :
  (scroll_fault Scenario.search_down (after_scroll "u1" Scenario.state3) = None ∧
   fetched "u1" (points Scenario.state3) ≠ [] ∧
   (similarity_search Scenario.search_down "anything"
      (search_k "u1" (-1) Scenario.state3) (journal_filter "u1")
      (after_scroll "u1" Scenario.state3)).1 = inl (IndexError "connection refused") ∧
   (get_relevant_entries Scenario.search_down "u1" "anything" (-1) Scenario.state3).1
     = inr ["I slept well"; "I went for a calm walk by the lake"] ∧
   spec_fallback (fetched "u1" (points Scenario.state3)) (-1) = [] ∧
   (get_relevant_entries Scenario.search_down "u1" "anything" (-1) Scenario.state3).1
     ≠ inr (spec_fallback (fetched "u1" (points Scenario.state3)) (-1))) ∧
  (fetched "u1" Scenario.points_null ≠ [] ∧
   (get_relevant_entries Scenario.search_down "u1" "anything" 2
      (Scenario.start Scenario.points_null)).1
     = inl (TypeError Scenario.NOT_COMPARABLE)).
Proof. repeat split; by_evaluation. Qed.

(** C2 (amended): when step 1 fetched at least one entry, the timestamps of
    the fetched entries are integers or absent, and the similarity-search
    step raises, [get_relevant_entries] does not raise; for [0 ≤ limit] it
    returns the texts of the fetched entries sorted by timestamp descending
    and truncated to the first [limit], an entry without text being skipped;
    for [limit < 0] the truncation [[:limit]] drops the last [-limit] entries
    of the sorted list instead. *)
Theorem fallback_on_search_error env s u q limit e s2 :
  scroll_fault env (after_scroll u s) = None →
  fetched u (points s) ≠ [] →
  int_timestamps (fetched u (points s)) →
  similarity_search env q (search_k u limit s) (journal_filter u) (after_scroll u s)
    = (inl e, s2) →
  Py.sorted_reverse timestamp_key (fetched u (points s)) ≡ₚ fetched u (points s) ∧
  StronglySorted (Py.descending timestamp_key)
    (Py.sorted_reverse timestamp_key (fetched u (points s))) ∧
  (0 ≤ limit →
     get_relevant_entries env u q limit s =
       (inr (spec_fallback (fetched u (points s)) limit), after_print e s2)) ∧
  (limit < 0 →
     get_relevant_entries env u q limit s =
       (inr (texts_of
               (take (length (fetched u (points s)) - Z.to_nat (- limit))
                     (Py.sorted_reverse timestamp_key (fetched u (points s))))),
        after_print e s2)).
Proof.
  intros Hscan Hne Hint Hsim.
  pose proof (get_relevant_entries_fallback env u q limit s e s2 Hscan Hne Hsim) as Hrun.
  rewrite (fallback_result_int env limit _ Hint) in Hrun.
  split; [apply sorted_reverse_perm|]. split; [apply sorted_reverse_sorted|].
  split; intros Hlimit; rewrite Hrun; do 2 f_equal.
  - by apply recent_texts_nonneg.
  - by rewrite recent_texts_texts_of, slice_to_negative, length_sorted_reverse.
Qed.

Lemma fallback_on_search_error_witness :
  get_relevant_entries Scenario.search_down "u1" "anything" 2 Scenario.state3 =
    (inr ["I slept well"; "I went for a calm walk by the lake"],
     after_print (IndexError "connection refused")
       (after_search "u1" "anything" 2 Scenario.state3)).
Proof.
  assert (Hscan : scroll_fault Scenario.search_down
                    (after_scroll "u1" Scenario.state3) = None) by reflexivity.
  assert (Hne : fetched "u1" (points Scenario.state3) ≠ []) by by_evaluation.
  assert (Hint : int_timestamps (fetched "u1" (points Scenario.state3)))
    by by_decision.
  assert (Hsim : similarity_search Scenario.search_down "anything"
                   (search_k "u1" 2 Scenario.state3) (journal_filter "u1")
                   (after_scroll "u1" Scenario.state3)
                 = (inl (IndexError "connection refused"),
                    after_search "u1" "anything" 2 Scenario.state3)) by reflexivity.
  destruct (fallback_on_search_error Scenario.search_down Scenario.state3
              "u1" "anything" 2 _ _ Hscan Hne Hint Hsim) as (_ & _ & Hrun & _).
  rewrite Hrun by lia. by_evaluation.
Defined.

(** C3, as stated, fails: with the embedding provider down the retrieval does
    not raise the embedding failure, it returns the recency fallback. *)
Lemma embedding_failure_counterexample :
  embed_query Scenario.embedding_down
    (after_embed "u1" "anything" Scenario.state3) "anything"
    = inl (EmbeddingError "rate limited") ∧
  (get_relevant_entries Scenario.embedding_down "u1" "anything" 2 Scenario.state3).1
    = inr ["I slept well"; "I went for a calm walk by the lake"] ∧
  (get_relevant_entries Scenario.embedding_down "u1" "anything" 2 Scenario.state3).1
    ≠ inl (EmbeddingError "rate limited").
Proof. repeat split; by_evaluation. Qed.

(** C3 (amended): a failure to embed the query is handled exactly as a fault
    of the search backend is: it is caught and printed by the same handler,
    and the outcome of the retrieval is the outcome of the recency fallback
    over the fetched entries, which is their recent texts when their
    timestamps are integers or absent. *)
Theorem embedding_failure_recovered env s u q limit :
  scroll_fault env (after_scroll u s) = None →
  fetched u (points s) ≠ [] →
  (∀ e, embed_query env (after_embed u q s) q = inl e →
        get_relevant_entries env u q limit s =
          (fallback_result env limit (fetched u (points s)),
           after_print e (after_embed u q s))) ∧
  (∀ v e, embed_query env (after_embed u q s) q = inr v →
          index_search env (after_search u q limit s) v (journal_filter u)
            (search_k u limit s) = inl e →
          get_relevant_entries env u q limit s =
            (fallback_result env limit (fetched u (points s)),
             after_print e (after_search u q limit s))) ∧
  (int_timestamps (fetched u (points s)) →
     fallback_result env limit (fetched u (points s))
       = inr (recent_texts (fetched u (points s)) limit)).
Proof.
  intros Hscan Hne. split; [|split].
  - intros e Hembed. apply get_relevant_entries_fallback; [done..|].
    rewrite similarity_search_run. fold (after_embed u q s). by rewrite Hembed.
  - intros v e Hembed Hsearch. apply get_relevant_entries_fallback; [done..|].
    rewrite similarity_search_run. fold (after_embed u q s). rewrite Hembed.
    fold (after_search u q limit s). by rewrite Hsearch.
  - apply fallback_result_int.
Qed.

Lemma embedding_failure_recovered_witness :
  get_relevant_entries Scenario.embedding_down "u1" "anything" 2 Scenario.state3 =
    (fallback_result Scenario.embedding_down 2
       (fetched "u1" (points Scenario.state3)),
     after_print (EmbeddingError "rate limited")
       (after_embed "u1" "anything" Scenario.state3)).
Proof.
  apply (proj1 (embedding_failure_recovered Scenario.embedding_down
                  Scenario.state3 "u1" "anything" 2
                  ltac:(reflexivity) ltac:(by_evaluation))).
  reflexivity.
Defined.

(** ** The limit *)

Lemma search_k_nonpositive u limit s : limit ≤ 0 → search_k u limit s = limit.
Proof. unfold search_k. lia. Qed.

Lemma search_k_bound u limit s :
  search_k u limit s ≤ Z.min limit (Z.of_nat (entryCount u (points s))).
Proof. unfold search_k. pose proof (length_fetched u (points s)). lia. Qed.

(** The calls of a retrieval: the scroll comes first and, once it has fetched
    something, the query is embedded. *)
Lemma retrieval_calls env u q limit s r s' :
  retrieval env u q limit s (r, s') →
  (∃ evs, trace s' =
     (trace s ++ EvScroll (journal_filter u) SCROLL_LIMIT :: evs)%list) ∧
  (scroll_fault env (after_scroll u s) = None → fetched u (points s) ≠ [] →
   ∃ evs, trace s' =
     (trace s ++ EvScroll (journal_filter u) SCROLL_LIMIT :: EvEmbedQuery q :: evs)%list).
Proof.
  inversion 1; subst; (split; [|intros Hscan Hne; try congruence]);
    unfold after_print, after_search, after_embed, after_scroll, logged; simpl;
    rewrite <- ?(assoc_L (++)); simpl; by eexists.
Qed.

(** C4, as stated, fails: there is no guard on the limit.  With three entries,
    the search backend down and [limit = -1], the retrieval scans the
    collection, embeds the query, calls the search and returns two texts. *)
Lemma nonpositive_limit_counterexample :
  -1 ≤ 0 ∧
  (get_relevant_entries Scenario.search_down "u1" "anything" (-1) Scenario.state3).1
    = inr ["I slept well"; "I went for a calm walk by the lake"] ∧
  List.filter provider_call
    (trace (get_relevant_entries Scenario.search_down "u1" "anything" (-1)
              Scenario.state3).2)
    = [EvScroll (journal_filter "u1") SCROLL_LIMIT;
       EvEmbedQuery "anything";
       EvSearch (journal_filter "u1") (-1)].
Proof. repeat split; by_evaluation. Qed.

(** C4 (amended): for [limit ≤ 0] the retrieval still scans the collection.
    If the scan fetches nothing the result is empty and nothing else is
    called.  Otherwise the query is embedded and the search is asked for
    [k = limit] results; what it returns is returned, and when the step raises
    and the timestamps of the fetched entries are integers or absent, the
    fallback yields the empty list for [limit = 0] and, for [limit < 0], the
    texts of the recency-sorted entries without the last [-limit]. *)
Theorem nonpositive_limit env s u q limit :
  limit ≤ 0 →
  (∃ evs, trace (get_relevant_entries env u q limit s).2 =
     (trace s ++ EvScroll (journal_filter u) SCROLL_LIMIT :: evs)%list) ∧
  (scroll_fault env (after_scroll u s) = None → fetched u (points s) = [] →
     get_relevant_entries env u q limit s = (inr [], after_scroll u s)) ∧
  (scroll_fault env (after_scroll u s) = None → fetched u (points s) ≠ [] →
     search_k u limit s = limit ∧
     ∃ evs, trace (get_relevant_entries env u q limit s).2 =
       (trace s ++ EvScroll (journal_filter u) SCROLL_LIMIT
                :: EvEmbedQuery q :: evs)%list) ∧
  (∀ docs s2,
     scroll_fault env (after_scroll u s) = None → fetched u (points s) ≠ [] →
     similarity_search env q limit (journal_filter u) (after_scroll u s)
       = (inr docs, s2) →
     get_relevant_entries env u q limit s = (inr (doc_page_content <$> docs), s2)) ∧
  (∀ e s2,
     scroll_fault env (after_scroll u s) = None → fetched u (points s) ≠ [] →
     int_timestamps (fetched u (points s)) →
     similarity_search env q limit (journal_filter u) (after_scroll u s)
       = (inl e, s2) →
     (limit = 0 →
        get_relevant_entries env u q limit s = (inr [], after_print e s2)) ∧
     (limit < 0 →
        get_relevant_entries env u q limit s =
          (inr (texts_of
                  (take (length (fetched u (points s)) - Z.to_nat (- limit))
                        (Py.sorted_reverse timestamp_key (fetched u (points s))))),
           after_print e s2))).
Proof.
  intros Hlimit.
  pose proof (get_relevant_entries_paths env u q limit s) as Hpath.
  destruct (get_relevant_entries env u q limit s) as [r s'] eqn:Hrun.
  destruct (retrieval_calls env u q limit s r s' Hpath) as [Hscroll Hembed].
  pose proof (search_k_nonpositive u limit s Hlimit) as Hk.
  split; [exact Hscroll|]. split.
  { intros Hscan Hnil. inversion Hpath; subst; congruence. }
  split; [by auto|]. split.
  - intros docs s2 Hscan Hne Hsim. rewrite <- Hrun.
    apply get_relevant_entries_semantic; [done..|]. by rewrite Hk.
  - intros e s2 Hscan Hne Hint Hsim.
    assert (get_relevant_entries env u q limit s =
              (inr (recent_texts (fetched u (points s)) limit), after_print e s2))
      as Hfb.
    { rewrite <- (fallback_result_int env limit _ Hint).
      apply get_relevant_entries_fallback; [done..|]. by rewrite Hk. }
    rewrite <- Hrun, Hfb, recent_texts_texts_of. split.
    + intros ->. done.
    + intros Hneg. by rewrite slice_to_negative, length_sorted_reverse.
Qed.

Lemma nonpositive_limit_witness :
  get_relevant_entries Scenario.search_down "u1" "anything" 0 Scenario.state3 =
    (inr [], after_print (IndexError "connection refused")
               (after_search "u1" "anything" 0 Scenario.state3)).
Proof.
  assert (Hlimit : 0 ≤ 0) by lia.
  destruct (nonpositive_limit Scenario.search_down Scenario.state3
              "u1" "anything" 0 Hlimit) as (_ & _ & _ & _ & Hfault).
  apply (Hfault (IndexError "connection refused"));
    [reflexivity | by_evaluation | by_decision | | ]; reflexivity.
Defined.

(** C5, as stated, fails for a negative limit: with three entries, the search
    backend down and [limit = -1], two texts are returned. *)
Lemma search_length_bound_counterexample :
  (get_relevant_entries Scenario.search_down "u1" "anything" (-1) Scenario.state3).1
    = inr ["I slept well"; "I went for a calm walk by the lake"] ∧
  entryCount "u1" (points Scenario.state3) = 3%nat ∧
  ¬ (Z.of_nat (length ["I slept well"; "I went for a calm walk by the lake"])
       ≤ Z.min (-1) (Z.of_nat (entryCount "u1" (points Scenario.state3)))).
Proof. repeat split; by_evaluation. Qed.

(** C5 (amended): for [0 ≤ limit], and an index that returns at most the [k]
    results it is asked for, the retrieval returns at most
    [min(limit, entryCount(u))] texts, on the semantic and on the fallback
    path. *)
Theorem search_length_bound env s u q limit texts s' :
  index_honours_k env →
  0 ≤ limit →
  get_relevant_entries env u q limit s = (inr texts, s') →
  Z.of_nat (length texts) ≤ Z.min limit (Z.of_nat (entryCount u (points s))).
Proof.
  intros Hindex Hlimit Hrun.
  pose proof (get_relevant_entries_paths env u q limit s) as Hpath.
  rewrite Hrun in Hpath.
  pose proof (search_k_bound u limit s) as Hk.
  pose proof (length_fetched u (points s)) as Hcount.
  assert (Hfb : fallback_result env limit (fetched u (points s)) = inr texts →
                Z.of_nat (length texts)
                  ≤ Z.min limit (Z.of_nat (entryCount u (points s)))).
  { intros [Hlen Hlim]%length_fallback_result. specialize (Hlim Hlimit). lia. }
  inversion Hpath as [ | | v docs Hscan Hne Hembed Hsearch | | ]; subst.
  - change (Z.of_nat (length (@nil string))) with 0. lia.
  - rewrite length_fmap.
    assert (Hk0 : 0 ≤ search_k u limit s) by (unfold search_k; lia).
    pose proof (Hindex _ _ _ _ _ Hsearch Hk0). lia.
  - by apply Hfb.
  - by apply Hfb.
Qed.

Lemma search_length_bound_witness :
  Z.of_nat (length ["I slept well"; "I felt anxious before my presentation"])
    ≤ Z.min 2 (Z.of_nat (entryCount "u1" (points Scenario.state3))).
Proof.
  apply (search_length_bound Scenario.healthy Scenario.state3 "u1"
           "Tell me about moments of calm" 2 _
           (after_search "u1" "Tell me about moments of calm" 2 Scenario.state3)).
  - intros s v f k docs [= <-] Hk. unfold Scenario.scan_search.
    rewrite length_take. lia.
  - lia.
  - by_evaluation.
Defined.

(** ** The reference index of the scenarios *)



(** ** Personality analysis *)

Lemma retrieval_no_completion u q evs :
  Forall (retrieval_event u q) evs → List.filter completion_call evs = [].
Proof.
  induction 1 as [|ev evs Hev _ IH]; [done|].
  destruct ev; simpl in *; try done; exact IH.
Qed.

(** C6: when the retrieval result is empty, [analyze_personality_and_respond]
    returns the fixed sentinel as a normal result and no completion call is
    made; this is in particular the case for a user without stored entries. *)
Theorem empty_retrieval_sentinel env s u question :
  (∀ s', get_relevant_entries env u question 8 s = (inr [], s') →
     analyze_personality_and_respond env u question s
       = (inr NOT_ENOUGH_ENTRIES, s') ∧
     List.filter completion_call (trace s')
       = List.filter completion_call (trace s)) ∧
  (entryCount u (points s) = 0%nat →
   scroll_fault env (after_scroll u s) = None →
     analyze_personality_and_respond env u question s
       = (inr NOT_ENOUGH_ENTRIES, after_scroll u s) ∧
     List.filter completion_call (trace (after_scroll u s))
       = List.filter completion_call (trace s)).
Proof.
  assert (Hgen : ∀ s', get_relevant_entries env u question 8 s = (inr [], s') →
     analyze_personality_and_respond env u question s
       = (inr NOT_ENOUGH_ENTRIES, s') ∧
     List.filter completion_call (trace s')
       = List.filter completion_call (trace s)).
  { intros s' Hrun. split.
    - unfold analyze_personality_and_respond, bind. by rewrite Hrun.
    - pose proof (get_relevant_entries_paths env u question 8 s) as Hpath.
      rewrite Hrun in Hpath.
      apply retrieval_trace in Hpath as [_ [evs [-> Hevs]]].
      rewrite List.filter_app, (retrieval_no_completion _ _ _ Hevs).
      by rewrite app_nil_r. }
  split; [exact Hgen|].
  intros Hcount Hscan. apply Hgen.
  pose proof (get_relevant_entries_paths env u question 8 s) as Hpath.
  assert (Hnil : fetched u (points s) = []).
  { apply length_zero_iff_nil. pose proof (length_fetched u (points s)). lia. }
  inversion Hpath; subst; congruence.
Qed.

Lemma empty_retrieval_sentinel_witness :
  analyze_personality_and_respond Scenario.healthy "u3" "Why do I procrastinate?"
    Scenario.state3
  = (inr NOT_ENOUGH_ENTRIES, after_scroll "u3" Scenario.state3).
Proof.
  apply (proj2 (empty_retrieval_sentinel Scenario.healthy Scenario.state3
                  "u3" "Why do I procrastinate?")).
  - by_evaluation.
  - reflexivity.
Defined.

(** ** Feedback *)

(** C7, as stated, fails: the text of the completion provider is returned as
    it is, also when it is free-form text that no parser of the five-field
    schema accepts. *)
Lemma feedback_unparsed_counterexample :
  (get_ai_feedback Scenario.healthy
     "Today was exhausting but I learned something." (Scenario.start ∅)).1
    = inr "Take a short walk tomorrow." ∧
  starts_json_object "Take a short walk tomorrow." = false.
Proof. split; by_evaluation. Qed.

(** C7 (amended): [get_ai_feedback] makes one completion call (model gpt-4,
    temperature 0.5, the fixed system prompt, the journal text as the user
    message) and returns the generated text verbatim, neither parsed nor
    validated; it fails exactly when the provider fails, with the provider's
    error. *)
Theorem feedback_verbatim env s journal_text :
  get_ai_feedback env journal_text s =
    (chat_completion env
       (logged (EvChatCompletion
                  {| req_model := "gpt-4";
                     req_temperature := (5 # 10)%Q;
                     req_max_tokens := None;
                     req_system := feedback_system_prompt;
                     req_user := journal_text |}) s)
       {| req_model := "gpt-4";
          req_temperature := (5 # 10)%Q;
          req_max_tokens := None;
          req_system := feedback_system_prompt;
          req_user := journal_text |},
     logged (EvChatCompletion
               {| req_model := "gpt-4";
                  req_temperature := (5 # 10)%Q;
                  req_max_tokens := None;
                  req_system := feedback_system_prompt;
                  req_user := journal_text |}) s).
Proof. unfold get_ai_feedback. apply chat_completions_create_run. Qed.

(** ** Storing entries *)

Lemma store_journal_entry_ok env u text s id s' :
  store_journal_entry env u text s = (inr id, s') →
  id = uuid4 env s ∧
  ∃ v, points s' =
         <[id := {| sp_payload := journal_payload u text (time_now env s);
                    sp_vector := v |}]> (points s).
Proof.
  unfold store_journal_entry, add_texts, bind, ask, log, lift_result, lift_fault, ret.
  simpl. destruct (embed_documents env _ text) as [e|v]; simpl; [discriminate|].
  destruct (upsert_fault env _) as [e|]; simpl; [discriminate|].
  intros [= <- <-]. split; [done|]. by exists v.
Qed.

Lemma journal_payload_matches u text now :
  matches (journal_filter u) (journal_payload u text now).
Proof. by split. Qed.

Lemma matching_records_insert f pts id p :
  pts !! id = None → matches f (sp_payload p) →
  matching_records f (<[id := p]> pts)
    ≡ₚ {| rec_id := id; payload := sp_payload p |} :: matching_records f pts.
Proof.
  intros Hfresh Hm. unfold matching_records, collection_records.
  rewrite (map_to_list_insert pts id p Hfresh), fmap_cons.
  by rewrite filter_cons_True.
Qed.

Lemma texts_of_app l1 l2 : texts_of (l1 ++ l2) = (texts_of l1 ++ texts_of l2)%list.
Proof. unfold texts_of. apply omap_app. Qed.

Lemma texts_of_perm l l' : l ≡ₚ l' → texts_of l ≡ₚ texts_of l'.
Proof. intros Hperm. unfold texts_of. by rewrite Hperm. Qed.

Lemma recent_texts_large_limit entries limit :
  Z.of_nat (length entries) ≤ limit →
  recent_texts entries limit ≡ₚ texts_of entries.
Proof.
  intros Hlimit. rewrite recent_texts_texts_of, slice_to_nonneg by lia.
  rewrite take_ge by (rewrite length_sorted_reverse; lia).
  apply texts_of_perm, sorted_reverse_perm.
Qed.

(** C8, as stated, fails: nothing in [store_journal_entry] makes the two ids
    differ.  When [uuid4] draws the same id twice, both calls return it and
    the second upsert overwrites the record of the first: the collection has
    grown by one record, not by two.  And with the empty text, stored twice
    under two different ids, the recency fallback returns neither record. *)
Lemma store_twice_overwrite_counterexample :
  ((store_journal_entry Scenario.same_id "u1" "hello" Scenario.state3).1 = inr "id" ∧
   (store_journal_entry Scenario.same_id "u1" "hello"
      (store_journal_entry Scenario.same_id "u1" "hello" Scenario.state3).2).1
     = inr "id" ∧
   size (points Scenario.state3) = 4%nat ∧
   size (points (Scenario.stored_twice Scenario.same_id "hello")) = 5%nat ∧
   entryCount "u1" (points Scenario.state3) = 3%nat ∧
   entryCount "u1" (points (Scenario.stored_twice Scenario.same_id "hello")) = 4%nat) ∧
  ((store_journal_entry Scenario.search_down "u1" EmptyString Scenario.state3).1
     = inr "#####" ∧
   (store_journal_entry Scenario.search_down "u1" EmptyString
      (store_journal_entry Scenario.search_down "u1" EmptyString Scenario.state3).2).1
     = inr "######" ∧
   entryCount "u1" (points (Scenario.stored_twice Scenario.search_down EmptyString))
     = 5%nat ∧
   (get_relevant_entries Scenario.search_down "u1" "anything" 10
      (Scenario.stored_twice Scenario.search_down EmptyString)).1
     = inr ["I slept well"; "I went for a calm walk by the lake";
            "I felt anxious before my presentation"]).
Proof. repeat split; by_evaluation. Qed.

(** C8 (amended): two successive calls of [store_journal_entry] with the same
    user and text return the ids that [uuid4] drew.  When each drawn id is not
    in use at the time of its call (which [uuid4] makes overwhelmingly likely
    and the code does not check), the ids are distinct and two distinct points
    are left behind: both carry the text, both match the user's filter and so
    are found by the user's scan, and the collection has grown by two; for a
    non-empty text, stored entries with integer or absent timestamps and a
    limit of at least the user's number of entries (at most 100), a retrieval
    whose similarity search raises returns the text twice, beside the texts
    stored before.  When the second draw is in use the second call adds no
    record, and when it equals the first it overwrites the record of the first
    call. *)
Theorem store_twice_two_records env s u text id1 s1 id2 s2 :
  store_journal_entry env u text s = (inr id1, s1) →
  store_journal_entry env u text s1 = (inr id2, s2) →
  id1 = uuid4 env s ∧ id2 = uuid4 env s1 ∧
  (id1 ∉ dom (points s) → id2 ∉ dom (points s1) →
   id1 ≠ id2 ∧
   (∃ p1 p2,
      points s2 !! id1 = Some p1 ∧ points s2 !! id2 = Some p2 ∧
      page_content (sp_payload p1) = Some text ∧
      page_content (sp_payload p2) = Some text ∧
      {| rec_id := id1; payload := sp_payload p1 |}
        ∈ matching_records (journal_filter u) (points s2) ∧
      {| rec_id := id2; payload := sp_payload p2 |}
        ∈ matching_records (journal_filter u) (points s2) ∧
      ((entryCount u (points s2) ≤ SCROLL_LIMIT)%nat →
         {| rec_id := id1; payload := sp_payload p1 |} ∈ fetched u (points s2) ∧
         {| rec_id := id2; payload := sp_payload p2 |} ∈ fetched u (points s2))) ∧
   size (points s2) = S (S (size (points s))) ∧
   entryCount u (points s2) = S (S (entryCount u (points s))) ∧
   (∀ q limit e s3,
      text ≠ EmptyString →
      (entryCount u (points s2) ≤ SCROLL_LIMIT)%nat →
      int_timestamps (matching_records (journal_filter u) (points s)) →
      Z.of_nat (entryCount u (points s2)) ≤ limit →
      scroll_fault env (after_scroll u s2) = None →
      similarity_search env q (search_k u limit s2) (journal_filter u)
        (after_scroll u s2) = (inl e, s3) →
      ∃ texts,
        get_relevant_entries env u q limit s2 = (inr texts, after_print e s3) ∧
        texts ≡ₚ text :: text
                   :: texts_of (matching_records (journal_filter u) (points s)))) ∧
  (id2 ∈ dom (points s1) → size (points s2) = size (points s1)) ∧
  (id1 = id2 →
   ∃ v, points s2 =
          <[id1 := {| sp_payload := journal_payload u text (time_now env s1);
                      sp_vector := v |}]> (points s)).
Proof.
  intros Hrun1 Hrun2.
  apply store_journal_entry_ok in Hrun1 as [-> [v1 Hpts1]].
  apply store_journal_entry_ok in Hrun2 as [-> [v2 Hpts2]].
  set (id1 := uuid4 env s) in *. set (id2 := uuid4 env s1) in *.
  split; [done|]. split; [done|]. split; [|split].
  - intros Hfresh1 Hfresh2.
    apply not_elem_of_dom in Hfresh1, Hfresh2.
    assert (Hne : id1 ≠ id2).
    { intros Heq. rewrite <- Heq, Hpts1, lookup_insert_eq in Hfresh2. done. }
    set (r1 := {| rec_id := id1;
                  payload := journal_payload u text (time_now env s) |}).
    set (r2 := {| rec_id := id2;
                  payload := journal_payload u text (time_now env s1) |}).
    assert (Hperm : matching_records (journal_filter u) (points s2)
                    ≡ₚ r2 :: r1 :: matching_records (journal_filter u) (points s)).
    { rewrite Hpts2, matching_records_insert;
        [|done|apply journal_payload_matches].
      rewrite Hpts1. simpl.
      rewrite matching_records_insert; [done|done|apply journal_payload_matches]. }
    split; [exact Hne|]. split; [|split; [|split]].
    + eexists _, _. rewrite Hpts2, Hpts1.
      rewrite lookup_insert_ne, !lookup_insert_eq by done.
      split; [done|]. split; [done|]. split; [done|]. split; [done|].
      rewrite <- Hpts1, <- Hpts2. fold r1 r2.
      assert (Hin : r1 ∈ matching_records (journal_filter u) (points s2) ∧
                    r2 ∈ matching_records (journal_filter u) (points s2)).
      { rewrite Hperm. split; [by right; left | by left]. }
      destruct Hin as [Hin1 Hin2]. split; [exact Hin1|]. split; [exact Hin2|].
      intros Hcap. unfold fetched. rewrite take_ge by exact Hcap. by split.
    + rewrite Hpts2, map_size_insert_None by done.
      by rewrite Hpts1, map_size_insert_None.
    + unfold entryCount. by rewrite Hperm.
    + intros q limit e s3 Htext Hcap Hint Hlimit Hscan Hsim.
      assert (Hall : fetched u (points s2)
                     = matching_records (journal_filter u) (points s2)).
      { unfold fetched. by apply take_ge. }
      assert (Hnonempty : fetched u (points s2) ≠ []).
      { rewrite Hall. intros Hnil. rewrite Hnil in Hperm.
        by apply Permutation_nil_cons in Hperm. }
      assert (Hint2 : int_timestamps (fetched u (points s2))).
      { rewrite Hall. unfold int_timestamps in *.
        eapply Permutation_Forall; [symmetry; exact Hperm|].
        by repeat constructor. }
      exists (recent_texts (fetched u (points s2)) limit). split.
      * rewrite <- (fallback_result_int env limit _ Hint2).
        by apply get_relevant_entries_fallback.
      * rewrite recent_texts_large_limit
          by (pose proof (length_fetched u (points s2)); lia).
        rewrite Hall, (texts_of_perm _ _ Hperm). unfold texts_of. simpl.
        by case_decide.
  - intros Hused. apply elem_of_dom in Hused as [p Hp].
    rewrite Hpts2. by eapply map_size_insert_Some.
  - intros Heq. exists v2. by rewrite Hpts2, Hpts1, <- Heq, insert_insert_eq.
Qed.

Lemma store_twice_two_records_witness :
  "#####" ≠ "######" ∧
  size (points (Scenario.stored_twice Scenario.healthy "hello")) = 6%nat.
Proof.
  destruct (store_twice_two_records Scenario.healthy Scenario.state3 "u1" "hello"
              "#####"
              (store_journal_entry Scenario.healthy "u1" "hello" Scenario.state3).2
              "######"
              (Scenario.stored_twice Scenario.healthy "hello"))
    as (_ & _ & Hfresh & _).
  - by_evaluation.
  - by_evaluation.
  - destruct Hfresh as (Hne & _ & Hsize & _).
    + apply not_elem_of_dom. by_evaluation.
    + apply not_elem_of_dom. by_evaluation.
    + split; [exact Hne | exact Hsize].
Defined.

(** ** Context assembly *)

Lemma append_nil_r (x : string) : x +:+ EmptyString = x.
Proof.
  induction x as [|a x IH]; [done|].
  change (String a (x +:+ EmptyString) = String a x). by rewrite IH.
Qed.

Lemma has_newline_cons a x :
  has_newline (String a x) ↔ a = "010"%char ∨ has_newline x.
Proof.
  unfold has_newline. simpl. rewrite elem_of_cons. split; intros [H|H]; auto.
Qed.

Lemma join_cons_rest x l :
  Py.join CONTEXT_SEPARATOR (x :: l) = x +:+ join_rest l.
Proof. destruct l; simpl; [by rewrite append_nil_r | done]. Qed.

Lemma join_rest_boundary l : boundary (join_rest l).
Proof. destruct l; [by left | right; by eexists]. Qed.

(** An entry without line feed ends where the first line feed of the context
    is, or where the context ends. *)
Lemma first_entry_unique x y r1 r2 :
  ¬ has_newline x → ¬ has_newline y → boundary r1 → boundary r2 →
  x +:+ r1 = y +:+ r2 → x = y ∧ r1 = r2.
Proof.
  revert y. induction x as [|a x IH]; intros [|b y] Hx Hy Hr1 Hr2 Heq.
  - done.
  - change (r1 = String b (y +:+ r2)) in Heq.
    destruct Hr1 as [->|[r' ->]]; [done|]. injection Heq as <- _.
    exfalso. apply Hy, has_newline_cons. by left.
  - change (String a (x +:+ r1) = r2) in Heq.
    destruct Hr2 as [->|[r' ->]]; [done|]. injection Heq as -> _.
    exfalso. apply Hx, has_newline_cons. by left.
  - change (String a (x +:+ r1) = String b (y +:+ r2)) in Heq.
    injection Heq as -> Heq.
    destruct (IH y) as [-> ->]; try done.
    + intros H. apply Hx, has_newline_cons. by right.
    + intros H. apply Hy, has_newline_cons. by right.
Qed.

Lemma join_newline_free_inj l1 l2 :
  l1 ≠ [] → l2 ≠ [] →
  Forall (λ x, ¬ has_newline x) l1 → Forall (λ x, ¬ has_newline x) l2 →
  Py.join CONTEXT_SEPARATOR l1 = Py.join CONTEXT_SEPARATOR l2 → l1 = l2.
Proof.
  revert l2. induction l1 as [|x l1 IH]; [done|].
  intros [|y l2] _ Hne2 H1 H2 Heq; [done|].
  apply Forall_cons in H1 as [Hx H1]. apply Forall_cons in H2 as [Hy H2].
  rewrite !join_cons_rest in Heq.
  apply first_entry_unique in Heq as [-> Hrest];
    [|done|done|apply join_rest_boundary..].
  f_equal. destruct l1 as [|x1 l1], l2 as [|y2 l2]; try done.
  apply IH; try done. unfold join_rest in Hrest.
  by apply (inj (String.append CONTEXT_SEPARATOR)) in Hrest.
Qed.

(** C9, as stated, fails: the separator is not escaped, so an entry that
    contains it produces the same context as two entries. *)
Lemma context_collision_counterexample :
  ["a" +:+ CONTEXT_SEPARATOR +:+ "b"] ≠ ["a"; "b"] ∧
  Py.join CONTEXT_SEPARATOR ["a" +:+ CONTEXT_SEPARATOR +:+ "b"]
    = Py.join CONTEXT_SEPARATOR ["a"; "b"].
Proof. split; by_evaluation. Qed.

(** C9 (amended): the context built for the analysis prompt is the retrieved
    texts in their order, each followed by the separator (two line feeds,
    three dashes, two line feeds) except the last; the separator is not
    escaped, and the contexts of two distinct sequences differ whenever both
    are non-empty and none of their entries contains a line feed. *)
Theorem context_join env s u question entries s1 :
  (get_relevant_entries env u question 8 s = (inr entries, s1) →
   entries ≠ [] →
   analyze_personality_and_respond env u question s =
     chat_completions_create env
       {| req_model := "gpt-4";
          req_temperature := (7 # 10)%Q;
          req_max_tokens := Some 800;
          req_system :=
            personality_system_prompt (Py.join CONTEXT_SEPARATOR entries);
          req_user := question |} s1) ∧
  (∀ x, Py.join CONTEXT_SEPARATOR [x] = x) ∧
  (∀ x y l, Py.join CONTEXT_SEPARATOR (x :: y :: l)
            = x +:+ CONTEXT_SEPARATOR +:+ Py.join CONTEXT_SEPARATOR (y :: l)) ∧
  (∀ l1 l2, l1 ≠ [] → l2 ≠ [] →
     Forall (λ x, ¬ has_newline x) l1 → Forall (λ x, ¬ has_newline x) l2 →
     l1 ≠ l2 →
     Py.join CONTEXT_SEPARATOR l1 ≠ Py.join CONTEXT_SEPARATOR l2).
Proof.
  split; [|split; [done|split; [done|]]].
  - intros Hrun Hne. unfold analyze_personality_and_respond, bind at 1.
    rewrite Hrun. by case_decide.
  - intros l1 l2 Hne1 Hne2 H1 H2 Hdiff Heq.
    by apply Hdiff, join_newline_free_inj.
Qed.

Lemma context_join_witness :
  Py.join CONTEXT_SEPARATOR ["I slept well"; "I went for a calm walk by the lake"]
  ≠ Py.join CONTEXT_SEPARATOR ["I slept well by the lake"].
Proof.
  apply (proj2 (proj2 (proj2 (context_join Scenario.healthy Scenario.state3 "u1"
                                 "How do I feel?" [] Scenario.state3)))).
  - done.
  - done.
  - by_decision.
  - by_decision.
  - done.
Defined.

(** ** Ranking by recency *)

Section KeyPreserving.

Context {A : Type} (key : A → Z) (f : A → A).
Hypothesis key_f : ∀ x, key (f x) = key x.

Lemma insert_desc_fmap x l :
  Py.insert_desc key (f x) (f <$> l) = f <$> Py.insert_desc key x l.
Proof.
  induction l as [|y l IH]; [done|]. simpl. rewrite !key_f.
  case_decide; [|done]. simpl. f_equal. apply IH.
Qed.

Lemma sorted_reverse_fmap l :
  Py.sorted_reverse key (f <$> l) = f <$> Py.sorted_reverse key l.
Proof.
  induction l as [|x l IH]; [done|]. simpl.
  rewrite <- insert_desc_fmap. f_equal. apply IH.
Qed.

End KeyPreserving.

Lemma slice_to_fmap {A B} (f : A → B) stop (l : list A) :
  Py.slice_to stop (f <$> l) = f <$> Py.slice_to stop l.
Proof. unfold Py.slice_to. rewrite length_fmap. case_decide; by rewrite fmap_take. Qed.

Section OrderPreserving.

Context {A : Type} (lt : A → A → bool) (f : A → A).
Hypothesis lt_f : ∀ x y, lt (f x) (f y) = lt x y.

Lemma insert_desc_by_fmap x l :
  Py.insert_desc_by lt (f x) (f <$> l) = f <$> Py.insert_desc_by lt x l.
Proof.
  induction l as [|y l IH]; [done|]. simpl. rewrite lt_f.
  destruct (lt x y); [|done]. simpl. f_equal. apply IH.
Qed.

Lemma sorted_reverse_by_fmap l :
  Py.sorted_reverse_by lt (f <$> l) = f <$> Py.sorted_reverse_by lt l.
Proof.
  induction l as [|x l IH]; [done|]. simpl.
  rewrite <- insert_desc_by_fmap. f_equal. apply IH.
Qed.

End OrderPreserving.

Lemma forallb_fmap {A B} (p : B → bool) (q : A → bool) (f : A → B) l :
  (∀ x, p (f x) = q x) → forallb p (f <$> l) = forallb q l.
Proof.
  intros Hpq. induction l as [|x l IH]; [done|]. simpl. rewrite Hpq.
  f_equal. exact IH.
Qed.

(** A map that keeps the keys commutes with the sort. *)
Lemma sorted_by_key_reverse_fmap {A} (key : A → pyval) (f : A → A) l :
  (∀ x, key (f x) = key x) →
  Py.sorted_by_key_reverse key (f <$> l)
    = fmap (M := list) f <$> Py.sorted_by_key_reverse key l.
Proof.
  intros Hkey. unfold Py.sorted_by_key_reverse. rewrite length_fmap.
  rewrite (forallb_fmap (λ x, Py.is_int (key x)) (λ x, Py.is_int (key x)) f)
    by (intros; by rewrite Hkey).
  rewrite (forallb_fmap (λ x, Py.is_str (key x)) (λ x, Py.is_str (key x)) f)
    by (intros; by rewrite Hkey).
  case_decide; [done|].
  destruct (forallb _ l); simpl.
  { f_equal. apply sorted_reverse_fmap. intros; by rewrite Hkey. }
  destruct (forallb _ l); simpl; [|done].
  f_equal. apply sorted_reverse_by_fmap. intros; by rewrite !Hkey.
Qed.

Lemma timestamp_value_default x :
  timestamp_value (with_timestamp_default x) = timestamp_value x.
Proof.
  unfold timestamp_value, with_timestamp_default. simpl.
  by destruct (metadata (payload x)) as [[? [?|] ?]|].
Qed.

Lemma texts_of_default l : texts_of (with_timestamp_default <$> l) = texts_of l.
Proof.
  unfold texts_of. induction l as [|x l IH]; [done|]. simpl.
  destruct (page_content (payload x)) as [t|]; [case_decide|];
    first [exact IH | f_equal; exact IH].
Qed.

(** The fallback does not tell an entry without timestamp from the same entry
    with timestamp 0. *)
Lemma fallback_result_default env limit entries :
  fallback_result env limit (with_timestamp_default <$> entries)
    = fallback_result env limit entries.
Proof.
  unfold fallback_result.
  rewrite (sorted_by_key_reverse_fmap timestamp_value with_timestamp_default)
    by apply timestamp_value_default.
  assert (Hkeys : timestamp_value <$> (with_timestamp_default <$> entries)
                  = timestamp_value <$> entries).
  { rewrite <- list_fmap_compose. apply list_fmap_ext.
    intros i x _. apply timestamp_value_default. }
  rewrite Hkeys.
  destruct (Py.sorted_by_key_reverse timestamp_value entries) as [ranked|];
    simpl; [|done].
  by rewrite !comprehension_texts_of, slice_to_fmap, texts_of_default.
Qed.

Lemma sorted_reverse_undated_last {A} (key : A → Z) l1 x l2 :
  key x = 0 → Forall (λ y, 0 < key y) (l1 ++ l2)%list →
  Py.sorted_reverse key (l1 ++ x :: l2)%list
    = (Py.sorted_reverse key (l1 ++ l2) ++ [x])%list.
Proof.
  intros Hx. induction l1 as [|a l1 IH]; simpl; intros Hpos.
  - apply insert_desc_back. rewrite sorted_reverse_perm.
    eapply Forall_impl; [exact Hpos|]. simpl. intros; lia.
  - apply Forall_cons in Hpos as [Ha Hpos]. rewrite IH by done.
    apply insert_desc_app_back; [|lia].
    rewrite sorted_reverse_perm.
    eapply Forall_impl; [exact Hpos|]. simpl. intros; lia.
Qed.

Lemma sorted_reverse_undated_first {A} (key : A → Z) l1 x l2 :
  key x = 0 → Forall (λ y, key y < 0) (l1 ++ l2)%list →
  Py.sorted_reverse key (l1 ++ x :: l2)%list
    = x :: Py.sorted_reverse key (l1 ++ l2).
Proof.
  intros Hx. induction l1 as [|a l1 IH]; simpl; intros Hneg.
  - apply insert_desc_front. rewrite sorted_reverse_perm.
    eapply Forall_impl; [exact Hneg|]. simpl. intros; lia.
  - apply Forall_cons in Hneg as [Ha Hneg]. rewrite IH by done.
    simpl. case_decide; [done | lia].
Qed.

Lemma texts_of_cons x l : texts_of (x :: l) = (texts_of [x] ++ texts_of l)%list.
Proof. apply (texts_of_app [x] l). Qed.

Lemma texts_of_textless x :
  ¬ Py.truthy (page_content (payload x)) → texts_of [x] = [].
Proof.
  unfold texts_of. simpl. destruct (page_content (payload x)) as [t|]; simpl; [|done].
  intros Hx. case_decide; [done | by destruct Hx].
Qed.

Lemma texts_of_text x :
  Py.truthy (page_content (payload x)) → ∃ t, texts_of [x] = [t].
Proof.
  unfold texts_of. simpl. destruct (page_content (payload x)) as [t|]; simpl; [|done].
  intros Hx. case_decide; [done | by exists t].
Qed.

(** Every entry without text among the entries costs one text. *)
Lemma length_texts_of_textless l :
  Exists (λ x, ¬ Py.truthy (page_content (payload x))) l →
  (length (texts_of l) < length l)%nat.
Proof.
  induction 1 as [x l Hx|x l _ IH]; rewrite texts_of_cons, length_app.
  - rewrite (texts_of_textless x Hx). pose proof (length_texts_of l). simpl. lia.
  - pose proof (length_texts_of [x]). simpl in *. lia.
Qed.

Lemma length_texts_of_text l :
  Exists (λ x, Py.truthy (page_content (payload x))) l →
  (0 < length (texts_of l))%nat.
Proof.
  induction 1 as [x l Hx|x l _ IH]; rewrite texts_of_cons, length_app.
  - destruct (texts_of_text x Hx) as [t ->]. simpl. lia.
  - lia.
Qed.

(** C10, as stated, fails in its last words: an entry without timestamp is
    ranked with timestamp 0, which is not last when another entry has a
    negative timestamp.  With an entry without timestamp and one of timestamp
    -5, and the search backend down, the entry without timestamp is ranked
    first: it is the one returned for [limit = 1]. *)
Lemma undated_ranked_first_counterexample :
  (λ x, (page_content (payload x), metadata (payload x) ≫= md_timestamp))
    <$> fetched "u1" Scenario.points_early
    = [(Some "undated", None); (Some "early", Some (PyInt (-5)))] ∧
  (get_relevant_entries Scenario.search_down "u1" "anything" 1
     (Scenario.start Scenario.points_early)).1 = inr ["undated"] ∧
  (get_relevant_entries Scenario.search_down "u1" "anything" 2
     (Scenario.start Scenario.points_early)).1 = inr ["undated"; "early"].
Proof. repeat split; by_evaluation. Qed.

(** C10 (amended): on the fallback path (the similarity-search step has
    raised, the fetched entries have integer or absent timestamps and
    [0 ≤ limit]) the entries without text are dropped after the
    recency-sorted list has been cut to [limit]: the result is the texts of
    the first [limit] entries of the sorted list.  So whenever an entry
    without text is among these first [limit] while an entry with text has
    been cut away, fewer texts are returned than
    [min(limit, number of the user's entries with a text)].  An entry whose
    metadata has no timestamp is ranked as the same entry with timestamp 0:
    after the other entries when these all have positive timestamps, and
    before them when these all have negative ones. *)
Theorem fallback_truncates_before_text_filter env s u q limit e s2 :
  scroll_fault env (after_scroll u s) = None →
  fetched u (points s) ≠ [] →
  int_timestamps (fetched u (points s)) →
  0 ≤ limit →
  similarity_search env q (search_k u limit s) (journal_filter u) (after_scroll u s)
    = (inl e, s2) →
  get_relevant_entries env u q limit s =
    (inr (texts_of (take (Z.to_nat limit)
                      (Py.sorted_reverse timestamp_key (fetched u (points s))))),
     after_print e s2) ∧
  (Exists (λ x, ¬ Py.truthy (page_content (payload x)))
     (take (Z.to_nat limit) (Py.sorted_reverse timestamp_key (fetched u (points s)))) →
   Exists (λ x, Py.truthy (page_content (payload x)))
     (drop (Z.to_nat limit) (Py.sorted_reverse timestamp_key (fetched u (points s)))) →
   Z.of_nat (length (texts_of (take (Z.to_nat limit)
               (Py.sorted_reverse timestamp_key (fetched u (points s))))))
     < Z.min limit
         (Z.of_nat (length (texts_of (matching_records (journal_filter u)
                                        (points s)))))) ∧
  fallback_result env limit (with_timestamp_default <$> fetched u (points s))
    = fallback_result env limit (fetched u (points s)) ∧
  (∀ l1 x l2,
     fetched u (points s) = (l1 ++ x :: l2)%list →
     metadata (payload x) ≫= md_timestamp = None →
     (Forall (λ y, 0 < timestamp_key y) (l1 ++ l2)%list →
      Py.sorted_reverse timestamp_key (fetched u (points s))
        = (Py.sorted_reverse timestamp_key (l1 ++ l2) ++ [x])%list) ∧
     (Forall (λ y, timestamp_key y < 0) (l1 ++ l2)%list →
      Py.sorted_reverse timestamp_key (fetched u (points s))
        = x :: Py.sorted_reverse timestamp_key (l1 ++ l2))).
Proof.
  intros Hscan Hne Hint Hlimit Hsim.
  set (ranked := Py.sorted_reverse timestamp_key (fetched u (points s))).
  split; [|split; [|split]].
  - rewrite (get_relevant_entries_fallback env u q limit s e s2 Hscan Hne Hsim).
    rewrite (fallback_result_int env limit _ Hint).
    by rewrite recent_texts_texts_of, slice_to_nonneg.
  - intros Hless Hcut.
    apply length_texts_of_textless in Hless. apply length_texts_of_text in Hcut.
    rewrite length_take in Hless.
    assert (Hall : length (texts_of (matching_records (journal_filter u) (points s)))
                   = (length (texts_of (take (Z.to_nat limit) ranked))
                      + length (texts_of (drop (Z.to_nat limit) ranked))
                      + length (texts_of (drop SCROLL_LIMIT
                                            (matching_records (journal_filter u)
                                               (points s)))))%nat).
    { rewrite <- (take_drop SCROLL_LIMIT (matching_records _ (points s))) at 1.
      fold (fetched u (points s)). rewrite texts_of_app, length_app. f_equal.
      rewrite <- length_app, <- texts_of_app, take_drop.
      apply Permutation_length, texts_of_perm. symmetry. apply sorted_reverse_perm. }
    lia.
  - apply fallback_result_default.
  - intros l1 x l2 Hsplit Hx.
    assert (Hkey : timestamp_key x = 0).
    { unfold timestamp_key, timestamp_value. by rewrite Hx. }
    unfold ranked. rewrite Hsplit. split; intros Hothers.
    + by apply sorted_reverse_undated_last.
    + by apply sorted_reverse_undated_first.
Qed.

Lemma fallback_truncates_before_text_filter_witness :
  get_relevant_entries Scenario.search_down "u1" "anything" 2
    (Scenario.start Scenario.points_textless) =
    (inr [], after_print (IndexError "connection refused")
               (after_search "u1" "anything" 2
                  (Scenario.start Scenario.points_textless))) ∧
  Z.of_nat (length (@nil string))
    < Z.min 2 (Z.of_nat (length (texts_of (matching_records (journal_filter "u1")
                                             Scenario.points_textless)))).
Proof.
  destruct (fallback_truncates_before_text_filter Scenario.search_down
              (Scenario.start Scenario.points_textless) "u1" "anything" 2
              (IndexError "connection refused")
              (after_search "u1" "anything" 2
                 (Scenario.start Scenario.points_textless)))
    as (Hrun & Hshort & _).
  - reflexivity.
  - by_evaluation.
  - by_decision.
  - lia.
  - reflexivity.
  - split; [exact Hrun|]. apply Hshort; by_decision.
Defined.

(** * Further properties of the module *)

(** ** Storing: failures and the round trip *)

Lemma store_journal_entry_run env u text s :
  store_journal_entry env u text s =
    match embed_documents env (logged (EvEmbedDocuments text) s) text with
    | inl e => (inl e, logged (EvEmbedDocuments text) s)
    | inr v =>
        match upsert_fault env (logged (EvUpsert (uuid4 env s))
                                  (logged (EvEmbedDocuments text) s)) with
        | Some e => (inl e, logged (EvUpsert (uuid4 env s))
                              (logged (EvEmbedDocuments text) s))
        | None =>
            (inr (uuid4 env s),
             {| points :=
                  <[uuid4 env s :=
                      {| sp_payload := journal_payload u text (time_now env s);
                         sp_vector := v |}]> (points s);
                trace := (trace s ++ [EvEmbedDocuments text]
                                  ++ [EvUpsert (uuid4 env s)])%list |})
        end
    end.
Proof.
  unfold store_journal_entry, add_texts, bind, ask, log, lift_result, lift_fault, ret.
  simpl. destruct (embed_documents env _ text) as [e|v]; simpl; [done|].
  destruct (upsert_fault env _) as [e|]; simpl; [done|].
  unfold logged. simpl. by rewrite <- (assoc_L (++)).
Qed.

(** X1: [store_journal_entry] has no handler.  A failure to embed the text is
    raised to the caller before the upsert is called, and a fault of the
    upsert (the request is refused) is raised to the caller as well; these
    are the only failures of the function, and the collection after a failed
    call is the collection before it. *)
Theorem store_failure_persists_nothing env u text s :
  (∀ e, embed_documents env (logged (EvEmbedDocuments text) s) text = inl e →
        store_journal_entry env u text s
          = (inl e, logged (EvEmbedDocuments text) s)) ∧
  (∀ v e, embed_documents env (logged (EvEmbedDocuments text) s) text = inr v →
          upsert_fault env (logged (EvUpsert (uuid4 env s))
                              (logged (EvEmbedDocuments text) s)) = Some e →
          store_journal_entry env u text s
            = (inl e, logged (EvUpsert (uuid4 env s))
                        (logged (EvEmbedDocuments text) s))) ∧
  (∀ e s', store_journal_entry env u text s = (inl e, s') →
           points s' = points s ∧
           (embed_documents env (logged (EvEmbedDocuments text) s) text = inl e ∨
            upsert_fault env (logged (EvUpsert (uuid4 env s))
                                (logged (EvEmbedDocuments text) s)) = Some e)).
Proof.
  rewrite store_journal_entry_run. split; [|split].
  - by intros e ->.
  - by intros v e -> ->.
  - intros e s'.
    destruct (embed_documents env _ text) as [e'|v] eqn:Hembed.
    + intros [= -> <-]. split; [done | by left].
    + destruct (upsert_fault env _) as [e'|] eqn:Hupsert; [|done].
      intros [= -> <-]. split; [done | by right].
Qed.

Lemma store_failure_persists_nothing_witness :
  store_journal_entry Scenario.embedding_down "u1" "hello" Scenario.state3
    = (inl (EmbeddingError "rate limited"),
       logged (EvEmbedDocuments "hello") Scenario.state3).
Proof.
  apply (proj1 (store_failure_persists_nothing Scenario.embedding_down "u1" "hello"
                  Scenario.state3)).
  reflexivity.
Defined.

(** X2: after a successful [store_journal_entry] the returned id looks up the
    point just written (the text, the user, the kind "journal" and the time
    of the call), every other id looks up what it did before, and the call
    made exactly one embedding call and one upsert. *)
Theorem store_then_lookup env u text s id s' :
  store_journal_entry env u text s = (inr id, s') →
  (∃ v, points s' !! id =
          Some {| sp_payload :=
                    {| page_content := Some text;
                       metadata := Some {| md_user_id := Some u;
                                           md_timestamp :=
                                             Some (PyInt (time_now env s));
                                           md_type := Some "journal" |} |};
                  sp_vector := v |}) ∧
  (∀ id', id' ≠ id → points s' !! id' = points s !! id') ∧
  trace s' = (trace s ++ [EvEmbedDocuments text; EvUpsert id])%list.
Proof.
  rewrite store_journal_entry_run.
  destruct (embed_documents env _ text) as [e'|v]; [done|].
  destruct (upsert_fault env _) as [e'|]; [done|].
  intros [= <- <-]. simpl. split; [|split].
  - exists v. by rewrite lookup_insert_eq.
  - intros id' Hne. by rewrite lookup_insert_ne.
  - done.
Qed.

Lemma store_then_lookup_witness :
  trace (store_journal_entry Scenario.healthy "u1" "hello" Scenario.state3).2
  = [EvEmbedDocuments "hello"; EvUpsert "#####"].
Proof.
  apply (store_then_lookup Scenario.healthy "u1" "hello" Scenario.state3 "#####").
  by_evaluation.
Defined.

(** ** Reading never writes *)

Lemma analyze_personality_and_respond_run env u question s :
  analyze_personality_and_respond env u question s =
    match get_relevant_entries env u question 8 s with
    | (inl e, s1) => (inl e, s1)
    | (inr entries, s1) =>
        if decide (entries = []) then (inr NOT_ENOUGH_ENTRIES, s1)
        else
          chat_completions_create env
            {| req_model := "gpt-4";
               req_temperature := (7 # 10)%Q;
               req_max_tokens := Some 800;
               req_system :=
                 personality_system_prompt (Py.join CONTEXT_SEPARATOR entries);
               req_user := question |} s1
    end.
Proof.
  unfold analyze_personality_and_respond, bind at 1.
  destruct (get_relevant_entries env u question 8 s) as [[e|entries] s1]; [done|].
  by case_decide.
Qed.

Lemma get_relevant_entries_points env u q limit s :
  points (get_relevant_entries env u q limit s).2 = points s.
Proof.
  pose proof (get_relevant_entries_paths env u q limit s) as Hpath.
  destruct (get_relevant_entries env u q limit s) as [r s'].
  apply retrieval_trace in Hpath as [Hpts _]. exact Hpts.
Qed.

Lemma analyze_points env u question s :
  points (analyze_personality_and_respond env u question s).2 = points s.
Proof.
  rewrite analyze_personality_and_respond_run.
  pose proof (get_relevant_entries_points env u question 8 s) as Hget.
  destruct (get_relevant_entries env u question 8 s) as [[e|entries] s1]; [done|].
  case_decide; [done|]. by rewrite chat_completions_create_run.
Qed.

(** X3: the three functions that read ([get_relevant_entries],
    [analyze_personality_and_respond], [get_ai_feedback]) never change the
    collection, whatever the collaborators answer and also when they fail. *)
Theorem reading_never_writes env u text limit s :
  points (get_relevant_entries env u text limit s).2 = points s ∧
  points (analyze_personality_and_respond env u text s).2 = points s ∧
  points (get_ai_feedback env text s).2 = points s.
Proof.
  split; [apply get_relevant_entries_points|]. split; [apply analyze_points|].
  unfold get_ai_feedback. by rewrite chat_completions_create_run.
Qed.

(** ** The recency fallback *)

Lemma texts_of_take_prefix l (n1 n2 : nat) :
  (n1 ≤ n2)%nat → texts_of (take n1 l) `prefix_of` texts_of (take n2 l).
Proof.
  intros Hn. exists (texts_of (drop n1 (take n2 l))).
  rewrite <- texts_of_app. f_equal.
  rewrite <- (take_drop n1 (take n2 l)) at 1.
  f_equal. rewrite take_take. f_equal. lia.
Qed.

(** X4: the fallback grows with the limit: for [0 ≤ limit1 ≤ limit2] the texts
    returned for [limit1] are the first texts returned for [limit2]. *)
Theorem fallback_monotone_in_limit entries limit1 limit2 :
  0 ≤ limit1 → limit1 ≤ limit2 →
  recent_texts entries limit1 `prefix_of` recent_texts entries limit2 ∧
  (∀ env texts1 texts2,
     fallback_result env limit1 entries = inr texts1 →
     fallback_result env limit2 entries = inr texts2 →
     texts1 `prefix_of` texts2).
Proof.
  intros H1 H12. split.
  - rewrite !recent_texts_texts_of, !slice_to_nonneg by lia.
    apply texts_of_take_prefix. lia.
  - intros env texts1 texts2.
    intros (ranked & Hsort & _ & ->)%fallback_result_inr.
    intros (ranked' & Hsort' & _ & ->)%fallback_result_inr.
    rewrite Hsort in Hsort'. injection Hsort' as <-.
    rewrite !slice_to_nonneg by lia. apply texts_of_take_prefix. lia.
Qed.

Lemma fallback_monotone_in_limit_witness :
  recent_texts (fetched "u1" (points Scenario.state3)) 1
    `prefix_of` recent_texts (fetched "u1" (points Scenario.state3)) 2.
Proof.
  apply (proj1 (fallback_monotone_in_limit
                  (fetched "u1" (points Scenario.state3)) 1 2
                  ltac:(lia) ltac:(lia))).
Defined.

(** X5: with a limit of at least the number of fetched entries the fallback
    loses nothing: it returns the text of every fetched entry that has one,
    each once. *)
Theorem fallback_large_limit_returns_all entries limit :
  Z.of_nat (length entries) ≤ limit →
  recent_texts entries limit ≡ₚ texts_of entries ∧
  (∀ env texts, fallback_result env limit entries = inr texts →
                texts ≡ₚ texts_of entries).
Proof.
  intros Hlimit. split; [by apply recent_texts_large_limit|].
  intros env texts (ranked & _ & Hperm & ->)%fallback_result_inr.
  rewrite slice_to_nonneg by lia.
  rewrite take_ge by (rewrite (Permutation_length Hperm); lia).
  by apply texts_of_perm.
Qed.

Lemma fallback_large_limit_returns_all_witness :
  recent_texts (fetched "u1" (points Scenario.state3)) 8
    ≡ₚ texts_of (fetched "u1" (points Scenario.state3)).
Proof.
  apply (proj1 (fallback_large_limit_returns_all
                  (fetched "u1" (points Scenario.state3)) 8
                  ltac:(by_evaluation))).
Defined.

Lemma length_fetched_cap u pts : (length (fetched u pts) ≤ SCROLL_LIMIT)%nat.
Proof. unfold fetched. rewrite length_take. lia. Qed.

(** X6: the scroll's limit of 100 caps what a retrieval asks for and what its
    fallback returns: the search is never asked for more than 100 results, a
    fallback that returns never returns more than 100 texts whatever the
    limit, and with an index that returns at most the [k] results it is asked
    for, no retrieval with [0 ≤ limit] returns more than 100 texts. *)
Theorem retrieval_scroll_cap env s u q limit :
  search_k u limit s ≤ Z.of_nat SCROLL_LIMIT ∧
  (∀ texts, fallback_result env limit (fetched u (points s)) = inr texts →
            (length texts ≤ SCROLL_LIMIT)%nat) ∧
  (∀ texts s',
     index_honours_k env → 0 ≤ limit →
     get_relevant_entries env u q limit s = (inr texts, s') →
     (length texts ≤ SCROLL_LIMIT)%nat).
Proof.
  pose proof (length_fetched_cap u (points s)) as Hcap.
  assert (Hfb : ∀ texts,
            fallback_result env limit (fetched u (points s)) = inr texts →
            (length texts ≤ SCROLL_LIMIT)%nat).
  { intros texts [Hlen _]%length_fallback_result. lia. }
  split; [unfold search_k; lia|]. split; [exact Hfb|].
  intros texts s' Hindex Hlimit Hrun.
  pose proof (get_relevant_entries_paths env u q limit s) as Hpath.
  rewrite Hrun in Hpath.
  inversion Hpath as [ | | v docs Hscan Hne Hembed Hsearch | | ]; subst.
  - simpl. lia.
  - rewrite length_fmap.
    assert (Hk0 : 0 ≤ search_k u limit s) by (unfold search_k; lia).
    pose proof (Hindex _ _ _ _ _ Hsearch Hk0). unfold search_k in *. lia.
  - by apply Hfb.
  - by apply Hfb.
Qed.

Lemma retrieval_scroll_cap_witness :
  (length ["I slept well"; "I felt anxious before my presentation";
           "I went for a calm walk by the lake"] ≤ SCROLL_LIMIT)%nat.
Proof.
  apply (proj2 (proj2 (retrieval_scroll_cap Scenario.healthy Scenario.state3 "u1"
                         "Tell me about moments of calm" 250))
           _ (after_search "u1" "Tell me about moments of calm" 250 Scenario.state3)).
  - intros s v f k docs [= <-] Hk. unfold Scenario.scan_search.
    rewrite length_take. lia.
  - lia.
  - by_evaluation.
Defined.

Lemma insert_desc_filter_key {A} (key : A → Z) k x l :
  filter (λ z, key z = k) (Py.insert_desc key x l) =
  filter (λ z, key z = k) (x :: l).
Proof.
  induction l as [|y l IH]; [done|]. simpl.
  case_decide as Hlt; [|done].
  rewrite (filter_cons _ y), IH, !filter_cons.
  repeat case_decide; try done; lia.
Qed.

Lemma sorted_reverse_filter_key {A} (key : A → Z) k l :
  filter (λ z, key z = k) (Py.sorted_reverse key l) = filter (λ z, key z = k) l.
Proof.
  induction l as [|x l IH]; [done|]. simpl.
  by rewrite insert_desc_filter_key, !filter_cons, IH.
Qed.

Section StableBy.

Context {A : Type} (lt : A → A → bool) (P : A → Prop) `{!∀ x, Decision (P x)}.
Hypothesis lt_P : ∀ x y, P x → P y → lt x y = false.

Lemma insert_desc_by_filter x l :
  filter P (Py.insert_desc_by lt x l) = filter P (x :: l).
Proof.
  induction l as [|y l IH]; [done|]. simpl.
  destruct (lt x y) eqn:Hlt; [|done].
  rewrite (filter_cons _ y), IH, !filter_cons.
  repeat case_decide; try done. by rewrite lt_P in Hlt.
Qed.

Lemma sorted_reverse_by_filter l :
  filter P (Py.sorted_reverse_by lt l) = filter P l.
Proof.
  induction l as [|x l IH]; [done|]. simpl.
  by rewrite insert_desc_by_filter, !filter_cons, IH.
Qed.

End StableBy.

Section Stable.

Context {A : Type} (key : A → Z) (P : A → Prop) `{!∀ x, Decision (P x)}.
Hypothesis key_P : ∀ x y, P x → P y → key x = key y.

Lemma insert_desc_filter x l :
  filter P (Py.insert_desc key x l) = filter P (x :: l).
Proof.
  induction l as [|y l IH]; [done|]. simpl.
  case_decide as Hlt; [|done].
  rewrite (filter_cons _ y), IH, !filter_cons.
  repeat case_decide; try done.
  pose proof (key_P x y ltac:(done) ltac:(done)). lia.
Qed.

Lemma sorted_reverse_filter l :
  filter P (Py.sorted_reverse key l) = filter P l.
Proof.
  induction l as [|x l IH]; [done|]. simpl.
  by rewrite insert_desc_filter, !filter_cons, IH.
Qed.

End Stable.

Lemma string_ltb_irrefl (x : string) : String.ltb x x = false.
Proof.
  unfold String.ltb. pose proof (String.compare_antisym x x) as Hc.
  by destruct (String.compare x x).
Qed.

(** The sort of the handler is stable for every kind of key. *)
Lemma sorted_by_key_reverse_stable {A} (key : A → pyval) l ranked v :
  Py.sorted_by_key_reverse key l = Some ranked →
  filter (λ z, key z = v) ranked = filter (λ z, key z = v) l.
Proof.
  unfold Py.sorted_by_key_reverse. case_decide; [by intros [= <-]|].
  destruct (forallb _ l).
  { intros [= <-]. apply sorted_reverse_filter. by intros x y -> ->. }
  destruct (forallb _ l); [|done].
  intros [= <-]. apply sorted_reverse_by_filter.
  intros x y -> ->. apply string_ltb_irrefl.
Qed.

(** X7: the fallback ranking is stable: entries with the same timestamp keep
    the order in which the scroll returned them. *)
Theorem fallback_ties_keep_scan_order (entries : list PointRecord) k :
  filter (λ z, timestamp_key z = k) (Py.sorted_reverse timestamp_key entries)
  = filter (λ z, timestamp_key z = k) entries ∧
  (∀ ranked v,
     Py.sorted_by_key_reverse timestamp_value entries = Some ranked →
     filter (λ z, timestamp_value z = v) ranked
     = filter (λ z, timestamp_value z = v) entries).
Proof.
  split; [apply sorted_reverse_filter_key|].
  intros ranked v. apply sorted_by_key_reverse_stable.
Qed.

Lemma fallback_ties_keep_scan_order_witness :
  filter (λ z, timestamp_value z = PyInt 100)
    [Scenario.dated "p2" 200 "later"; Scenario.dated "p1" 100 "first";
     Scenario.dated "p3" 100 "second"]
  = filter (λ z, timestamp_value z = PyInt 100)
      [Scenario.dated "p1" 100 "first"; Scenario.dated "p2" 200 "later";
       Scenario.dated "p3" 100 "second"].
Proof.
  apply (proj2 (fallback_ties_keep_scan_order
                  [Scenario.dated "p1" 100 "first"; Scenario.dated "p2" 200 "later";
                   Scenario.dated "p3" 100 "second"] 100)).
  by_evaluation.
Defined.




Lemma sorted_reverse_head {A} (key : A → Z) (l : list A) x :
  x ∈ l → (∀ y, y ∈ l → key x ≤ key y → y = x) →
  ∃ rest, Py.sorted_reverse key l = x :: rest.
Proof.
  intros Hx Hmax.
  pose proof (sorted_reverse_perm key l) as Hperm.
  pose proof (sorted_reverse_sorted key l) as Hsorted.
  destruct (Py.sorted_reverse key l) as [|h rest].
  { rewrite <- Hperm in Hx. by apply elem_of_nil in Hx. }
  exists rest. f_equal.
  apply Hmax; [rewrite <- Hperm; by left|].
  rewrite <- Hperm in Hx. apply elem_of_cons in Hx as [->|Hx]; [done|].
  apply StronglySorted_inv in Hsorted as [_ Hall].
  rewrite Forall_forall in Hall. by apply Hall.
Qed.

(** X8: storing and then asking: right after a successful
    [store_journal_entry] of a non-empty text under a new id, for a user with
    fewer than 100 entries, all with integer or absent timestamps older than
    the call, a retrieval whose similarity search raises returns the new text
    first, for every limit of at least 1. *)
Theorem stored_entry_leads_fallback env u text q limit s id s1 e s2 :
  store_journal_entry env u text s = (inr id, s1) →
  points s !! id = None →
  text ≠ EmptyString →
  (entryCount u (points s) < SCROLL_LIMIT)%nat →
  int_timestamps (fetched u (points s)) →
  (∀ r, r ∈ fetched u (points s) → timestamp_key r < time_now env s) →
  1 ≤ limit →
  scroll_fault env (after_scroll u s1) = None →
  similarity_search env q (search_k u limit s1) (journal_filter u) (after_scroll u s1)
    = (inl e, s2) →
  ∃ rest, get_relevant_entries env u q limit s1 = (inr (text :: rest), after_print e s2).
Proof.
  intros Hstore Hfresh Htext Hcount Hint0 Hold Hlimit Hscan Hsim.
  apply store_journal_entry_ok in Hstore as [-> [v Hpts]].
  set (id := uuid4 env s) in *.
  set (x := {| rec_id := id; payload := journal_payload u text (time_now env s) |}).
  assert (Hperm : matching_records (journal_filter u) (points s1)
                  ≡ₚ x :: matching_records (journal_filter u) (points s)).
  { rewrite Hpts. apply (matching_records_insert _ _ id); [done|].
    apply journal_payload_matches. }
  assert (Hall1 : fetched u (points s1) = matching_records (journal_filter u) (points s1)).
  { unfold fetched. apply take_ge. rewrite Hperm. simpl. unfold entryCount in Hcount. lia. }
  assert (Hall0 : fetched u (points s) = matching_records (journal_filter u) (points s)).
  { unfold fetched. apply take_ge. unfold entryCount in Hcount. lia. }
  assert (Hne : fetched u (points s1) ≠ []).
  { rewrite Hall1. intros Hnil. rewrite Hnil in Hperm.
    by apply Permutation_nil_cons in Hperm. }
  assert (Hint : int_timestamps (fetched u (points s1))).
  { rewrite Hall1. unfold int_timestamps.
    eapply Permutation_Forall; [symmetry; exact Hperm|].
    constructor; [done|]. by rewrite <- Hall0. }
  rewrite (get_relevant_entries_fallback env u q limit s1 e s2 Hscan Hne Hsim).
  rewrite (fallback_result_int env limit _ Hint).
  rewrite recent_texts_texts_of, slice_to_nonneg by lia.
  destruct (sorted_reverse_head timestamp_key (fetched u (points s1)) x) as [rest ->].
  - rewrite Hall1, Hperm. by left.
  - intros y Hy Hkey. rewrite Hall1, Hperm in Hy.
    apply elem_of_cons in Hy as [->|Hy]; [done|].
    rewrite <- Hall0 in Hy. apply Hold in Hy.
    change (timestamp_key x) with (time_now env s) in Hkey. lia.
  - destruct (Z.to_nat limit) as [|n] eqn:Hn; [lia|].
    unfold texts_of. simpl. case_decide; [done|]. by eexists.
Qed.

Lemma stored_entry_leads_fallback_witness :
  ∃ rest,
    get_relevant_entries Scenario.search_down "u1" "anything" 2
      (store_journal_entry Scenario.search_down "u1" "hello" Scenario.state3).2
    = (inr ("hello" :: rest),
       after_print (IndexError "connection refused")
         (after_search "u1" "anything" 2
            (store_journal_entry Scenario.search_down "u1" "hello" Scenario.state3).2)).
Proof.
  apply (stored_entry_leads_fallback Scenario.search_down "u1" "hello" "anything" 2
           Scenario.state3 "#####").
  - by_evaluation.
  - by_evaluation.
  - done.
  - by_evaluation.
  - by_decision.
  - apply Forall_forall. by_decision.
  - lia.
  - reflexivity.
  - reflexivity.
Defined.

(** ** Analysis: errors *)

(** X9: [analyze_personality_and_respond] has no handler of its own: a fault
    of the scroll is raised to the caller before any completion call, and
    when entries were retrieved the outcome of the single completion call
    (the generated text or the provider's error) is the outcome of the
    analysis. *)
Theorem analysis_error_propagation env u question s :
  (∀ e, scroll_fault env (after_scroll u s) = Some e →
     analyze_personality_and_respond env u question s = (inl e, after_scroll u s)) ∧
  (∀ entries s1,
     get_relevant_entries env u question 8 s = (inr entries, s1) →
     entries ≠ [] →
     ∃ req,
       req_user req = question ∧ req_max_tokens req = Some 800 ∧
       req_system req = personality_system_prompt (Py.join CONTEXT_SEPARATOR entries) ∧
       analyze_personality_and_respond env u question s =
         (chat_completion env (logged (EvChatCompletion req) s1) req,
          logged (EvChatCompletion req) s1)).
Proof.
  split.
  - intros e Hscan. rewrite analyze_personality_and_respond_run.
    pose proof (get_relevant_entries_paths env u question 8 s) as Hpath.
    destruct (get_relevant_entries env u question 8 s) as [r s1].
    inversion Hpath; subst; congruence.
  - intros entries s1 Hrun Hne. rewrite analyze_personality_and_respond_run, Hrun.
    case_decide; [done|]. eexists. rewrite chat_completions_create_run.
    repeat split; reflexivity.
Qed.

Lemma analysis_error_propagation_witness :
  ∃ req,
    req_user req = "How do I feel?" ∧ req_max_tokens req = Some 800 ∧
    req_system req =
      personality_system_prompt
        (Py.join CONTEXT_SEPARATOR
           ["I slept well"; "I went for a calm walk by the lake";
            "I felt anxious before my presentation"]) ∧
    analyze_personality_and_respond Scenario.search_down "u1" "How do I feel?"
      Scenario.state3 =
      (chat_completion Scenario.search_down
         (logged (EvChatCompletion req)
            (after_print (IndexError "connection refused")
               (after_search "u1" "How do I feel?" 8 Scenario.state3))) req,
       logged (EvChatCompletion req)
         (after_print (IndexError "connection refused")
            (after_search "u1" "How do I feel?" 8 Scenario.state3))).
Proof.
  apply (proj2 (analysis_error_propagation Scenario.search_down "u1"
                  "How do I feel?" Scenario.state3)).
  - by_evaluation.
  - done.
Defined.

(** ** The chat session *)


Lemma chat_loop_cons env u line stdin s :
  chat_loop env u (line :: stdin) s =
    if decide (PyStr.lower (PyStr.strip line) ∈ QUIT_WORDS) then
      (inr (Returned stdin),
       logged (EvPrint "🤖 Take care! Keep journaling for better insights!") s)
    else if decide (PyStr.strip line = EmptyString) then chat_loop env u stdin s
    else chat_loop env u stdin (after_turn env u (PyStr.strip line) s).
Proof.
  simpl. case_decide; [done|]. case_decide; [done|].
  unfold bind, try_except, after_turn, print, log.
  destruct (analyze_personality_and_respond env u (PyStr.strip line) _)
    as [[e|ai_response] s']; reflexivity.
Qed.

Lemma after_turn_points env u q s : points (after_turn env u q s) = points s.
Proof.
  unfold after_turn.
  pose proof (analyze_points env u q
                (logged (EvPrint (nl +:+ "🤖 Analyzing your patterns...")) s)) as H.
  by destruct (analyze_personality_and_respond env u q _) as [[e|r] s'].
Qed.

Lemma chat_loop_total env u stdin s :
  ∃ r s', chat_loop env u stdin s = (inr r, s') ∧ points s' = points s.
Proof.
  revert s. induction stdin as [|line stdin IH]; intros s.
  - by exists EOFError, s.
  - rewrite chat_loop_cons. case_decide; [by eexists _, _|].
    case_decide; [apply IH|].
    destruct (IH (after_turn env u (PyStr.strip line) s)) as (r & s' & -> & Hpts).
    exists r, s'. split; [done|]. by rewrite Hpts, after_turn_points.
Qed.

(** X10: no failure of a turn ends the chat session.  When the analysis of a
    question raises (a fault of the scroll, of the completion provider, or
    the [TypeError] of the fallback), the loop prints
    [Sorry, I encountered an error: ...] with the message of the error, then
    [Please try asking your question differently.], and goes on with the next
    line.  So [start_personality_chat] never ends with the error of a turn:
    it ends by returning at a quit word or with the [EOFError] that [input]
    raises at the end of the input, and the collection is what it was.
    (Lines of ASCII characters, on which [PyStr.strip] and [PyStr.lower] are
    the Python methods.) *)
Theorem chat_survives_failures env u stdin s :
  Forall PyStr.is_ascii stdin →
  (∃ r s', start_personality_chat env u stdin s = (inr r, s') ∧
           points s' = points s) ∧
  (∀ line rest s0 e s1,
     PyStr.is_ascii line →
     PyStr.lower (PyStr.strip line) ∉ QUIT_WORDS →
     PyStr.strip line ≠ EmptyString →
     analyze_personality_and_respond env u (PyStr.strip line)
       (logged (EvPrint (nl +:+ "🤖 Analyzing your patterns...")) s0)
       = (inl e, s1) →
     chat_loop env u (line :: rest) s0 =
       chat_loop env u rest
         (logged (EvPrint ("Please try asking your question differently." +:+ nl))
            (logged (EvPrint ("Sorry, I encountered an error: " +:+ exn_msg e))
               s1))).
Proof.
  intros _. split.
  - unfold start_personality_chat, bind, print, log.
    destruct (chat_loop_total env u stdin
                (logged (EvPrint ("Type 'quit' to exit." +:+ nl))
                   (logged (EvPrint "I'll analyze your journal entries to give you personalized insights.")
                      (logged (EvPrint "Ask me anything about your personality, behavior patterns, or emotional tendencies.")
                         (logged (EvPrint (nl +:+ "🧠 Welcome to your Personal Behavior Analysis Chat!")) s)))))
      as (r & s' & Hrun & Hpts).
    exists r, s'. split; [exact Hrun | by rewrite Hpts].
  - intros line rest s0 e s1 _ Hquit Hblank Hrun.
    rewrite chat_loop_cons, decide_False, decide_False by done.
    unfold after_turn. by rewrite Hrun.
Qed.

Lemma chat_survives_failures_witness :
  chat_loop Scenario.search_down "u1" ["why?"; "bye"]
    (Scenario.start Scenario.points_null) =
    chat_loop Scenario.search_down "u1" ["bye"]
      (logged (EvPrint ("Please try asking your question differently." +:+ nl))
         (logged (EvPrint ("Sorry, I encountered an error: "
                           +:+ exn_msg (TypeError Scenario.NOT_COMPARABLE)))
            (analyze_personality_and_respond Scenario.search_down "u1" "why?"
               (logged (EvPrint (nl +:+ "🤖 Analyzing your patterns..."))
                  (Scenario.start Scenario.points_null))).2)).
Proof.
  apply (proj2 (chat_survives_failures Scenario.search_down "u1" ["why?"; "bye"]
                  (Scenario.start Scenario.points_null) ltac:(by_decision))
           "why?" ["bye"] (Scenario.start Scenario.points_null)
           (TypeError Scenario.NOT_COMPARABLE)).
  - by_decision.
  - by_decision.
  - by_evaluation.
  - by_evaluation.
Defined.

Lemma start_personality_chat_run env u stdin s :
  start_personality_chat env u stdin s =
    chat_loop env u stdin
      (logged (EvPrint ("Type 'quit' to exit." +:+ nl))
         (logged (EvPrint "I'll analyze your journal entries to give you personalized insights.")
            (logged (EvPrint "Ask me anything about your personality, behavior patterns, or emotional tendencies.")
               (logged (EvPrint (nl +:+ "🧠 Welcome to your Personal Behavior Analysis Chat!")) s)))).
Proof. reflexivity. Qed.

Lemma chat_loop_quit env u pre q post s :
  Forall (λ l, PyStr.lower (PyStr.strip l) ∉ QUIT_WORDS) pre →
  PyStr.lower (PyStr.strip q) ∈ QUIT_WORDS →
  ∃ s', chat_loop env u (pre ++ q :: post) s = (inr (Returned post), s') ∧
        last (trace s')
          = Some (EvPrint "🤖 Take care! Keep journaling for better insights!").
Proof.
  intros Hpre Hq. revert s. induction Hpre as [|l pre Hl _ IH]; intros s.
  - simpl app. rewrite chat_loop_cons. rewrite decide_True by done.
    eexists. split; [done|]. simpl. by rewrite last_snoc.
  - change ((l :: pre) ++ q :: post)%list with (l :: (pre ++ q :: post))%list.
    rewrite chat_loop_cons. rewrite decide_False by done.
    case_decide; apply IH.
Qed.

Lemma chat_loop_eof env u stdin s :
  Forall (λ l, PyStr.lower (PyStr.strip l) ∉ QUIT_WORDS) stdin →
  ∃ s', chat_loop env u stdin s = (inr EOFError, s').
Proof.
  intros Hall. revert s. induction Hall as [|l stdin Hl _ IH]; intros s.
  - by eexists.
  - rewrite chat_loop_cons. rewrite decide_False by done. case_decide; apply IH.
Qed.

(** X11: a chat session ends at the first line that is a quit word ([quit],
    [exit] or [bye], in any case and surrounded by any blanks): it prints the
    farewell last and leaves the lines after it unread; when no line of the
    input is a quit word the session ends with the [EOFError] of [input].
    (Lines of ASCII characters, on which [PyStr.strip] and [PyStr.lower] are
    the Python methods.) *)
Theorem chat_ends_at_first_quit_word env u stdin s :
  Forall PyStr.is_ascii stdin →
  (∀ pre q post,
     stdin = (pre ++ q :: post)%list →
     Forall (λ l, PyStr.lower (PyStr.strip l) ∉ QUIT_WORDS) pre →
     PyStr.lower (PyStr.strip q) ∈ QUIT_WORDS →
     ∃ s', start_personality_chat env u stdin s = (inr (Returned post), s') ∧
           last (trace s')
             = Some (EvPrint "🤖 Take care! Keep journaling for better insights!")) ∧
  (Forall (λ l, PyStr.lower (PyStr.strip l) ∉ QUIT_WORDS) stdin →
     ∃ s', start_personality_chat env u stdin s = (inr EOFError, s')).
Proof.
  intros _. split.
  - intros pre q post -> Hpre Hq. rewrite start_personality_chat_run.
    by apply chat_loop_quit.
  - intros Hall. rewrite start_personality_chat_run. by apply chat_loop_eof.
Qed.

Lemma chat_ends_at_first_quit_word_witness :
  ∃ s', start_personality_chat Scenario.healthy "u1"
          ["How am I doing?"; "  ExIt "; "3"] Scenario.state3
        = (inr (Returned ["3"]), s') ∧
        last (trace s')
          = Some (EvPrint "🤖 Take care! Keep journaling for better insights!").
Proof.
  apply (proj1 (chat_ends_at_first_quit_word Scenario.healthy "u1"
                  ["How am I doing?"; "  ExIt "; "3"] Scenario.state3
                  ltac:(by_decision)) ["How am I doing?"] "  ExIt " ["3"]).
  - reflexivity.
  - by_decision.
  - by_decision.
Defined.



(** The calls of one retrieval: one scroll, for the user, and then calls that
    are no scrolls and are scoped to the user. *)
Lemma retrieval_scroll_once env u q limit s r s' :
  retrieval env u q limit s (r, s') →
  ∃ evs, trace s' = (trace s ++ EvScroll (journal_filter u) SCROLL_LIMIT :: evs)%list ∧
         List.filter scroll_call evs = [] ∧ Forall (scoped_to u) evs.
Proof.
  inversion 1; subst;
    unfold after_print, after_search, after_embed, after_scroll, logged; simpl;
    rewrite <- ?(assoc_L (++)); simpl;
    (eexists; split; [reflexivity|]); (split; [reflexivity|]);
    repeat constructor.
Qed.

Lemma analyze_scroll_once env u q s :
  ∃ evs, trace (analyze_personality_and_respond env u q s).2
           = (trace s ++ EvScroll (journal_filter u) SCROLL_LIMIT :: evs)%list ∧
         List.filter scroll_call evs = [] ∧ Forall (scoped_to u) evs.
Proof.
  rewrite analyze_personality_and_respond_run.
  pose proof (get_relevant_entries_paths env u q 8 s) as Hpath.
  destruct (get_relevant_entries env u q 8 s) as [r s1].
  apply retrieval_scroll_once in Hpath as (evs & Htrace & Hscroll & Hscoped).
  destruct r as [e|entries]; [by exists evs|].
  case_decide; [by exists evs|].
  rewrite chat_completions_create_run. simpl. rewrite Htrace.
  eexists (evs ++ [_])%list. rewrite <- (assoc_L (++)). split; [done|].
  rewrite List.filter_app, Hscroll. split; [done|].
  apply Forall_app. split; [done | by repeat constructor].
Qed.

Lemma after_turn_scroll_once env u q s :
  ∃ evs, trace (after_turn env u q s) = (trace s ++ evs)%list ∧
         List.filter scroll_call evs = [EvScroll (journal_filter u) SCROLL_LIMIT] ∧
         Forall (scoped_to u) evs.
Proof.
  unfold after_turn.
  destruct (analyze_scroll_once env u q
              (logged (EvPrint (nl +:+ "🤖 Analyzing your patterns...")) s))
    as (evs & Htrace & Hscroll & Hscoped).
  destruct (analyze_personality_and_respond env u q _) as [[e|r] s']; simpl in *;
    rewrite Htrace, <- !(assoc_L (++)); simpl;
    (eexists; split; [reflexivity|]); simpl;
    rewrite List.filter_app, Hscroll; (split; [done|]);
    constructor; try done; constructor; try done;
    apply Forall_app; (split; [done | by repeat constructor]).
Qed.

Lemma chat_loop_scrolls env u stdin s :
  ∃ evs, trace (chat_loop env u stdin s).2 = (trace s ++ evs)%list ∧
         List.filter scroll_call evs
           = ((λ _, EvScroll (journal_filter u) SCROLL_LIMIT) <$> asked stdin) ∧
         Forall (scoped_to u) evs.
Proof.
  revert s. induction stdin as [|line stdin IH]; intros s.
  - exists []. by rewrite app_nil_r.
  - rewrite chat_loop_cons. simpl asked. case_decide.
    { eexists [_]. split; [done|]. split; [done|]. by repeat constructor. }
    case_decide; [apply IH|].
    destruct (after_turn_scroll_once env u (PyStr.strip line) s)
      as (evs1 & Htrace1 & Hscroll1 & Hscoped1).
    destruct (IH (after_turn env u (PyStr.strip line) s))
      as (evs2 & Htrace2 & Hscroll2 & Hscoped2).
    exists (evs1 ++ evs2)%list. rewrite Htrace2, Htrace1, <- (assoc_L (++)).
    split; [done|]. rewrite List.filter_app, Hscroll1, Hscroll2.
    split; [done | by apply Forall_app].
Qed.

(** X13: a chat session retrieves once per question and only for its user:
    the scrolls it issues are one for each stripped non-empty line before the
    first quit word, each with the filter of the session's user, and every
    search carries that filter too.  (ASCII lines.) *)
Theorem chat_one_retrieval_per_question env u stdin s :
  Forall PyStr.is_ascii stdin →
  ∃ evs,
    trace (start_personality_chat env u stdin s).2 = (trace s ++ evs)%list ∧
    List.filter scroll_call evs
      = ((λ _, EvScroll (journal_filter u) SCROLL_LIMIT) <$> asked stdin) ∧
    Forall (scoped_to u) evs.
Proof.
  intros _. rewrite start_personality_chat_run.
  match goal with |- context [chat_loop env u stdin ?s0] =>
    destruct (chat_loop_scrolls env u stdin s0) as (evs & Htrace & Hscroll & Hscoped)
  end.
  eexists (_ :: _ :: _ :: _ :: evs)%list. rewrite Htrace. simpl.
  rewrite <- !(assoc_L (++)). simpl. split; [reflexivity|].
  split; [exact Hscroll|]. by repeat constructor.
Qed.

Lemma chat_one_retrieval_per_question_witness :
  asked ["How am I doing?"; "  "; "And now?"; "QUIT"; "never read"]
  = ["How am I doing?"; "And now?"] ∧
  ∃ evs,
    trace (start_personality_chat Scenario.healthy "u1"
             ["How am I doing?"; "  "; "And now?"; "QUIT"; "never read"]
             Scenario.state3).2 = (trace Scenario.state3 ++ evs)%list ∧
    List.filter scroll_call evs
      = ((λ _, EvScroll (journal_filter "u1") SCROLL_LIMIT)
           <$> asked ["How am I doing?"; "  "; "And now?"; "QUIT"; "never read"]) ∧
    Forall (scoped_to "u1") evs.
Proof.
  split; [by_evaluation|].
  apply chat_one_retrieval_per_question. by_decision.
Defined.

(** ** The menu *)

Lemma main_menu_loop_S env fuel u stdin :
  main_menu_loop env (S fuel) u stdin
  = menu_body env u (main_menu_loop env fuel u) stdin.
Proof. reflexivity. Qed.

Lemma read_entry_spec acc stdin lines rest :
  read_entry acc stdin = Some (lines, rest) →
  ∃ new, lines = (acc ++ new)%list ∧ Forall (λ l, l ≠ EmptyString) new ∧
         stdin = (new ++ EmptyString :: rest)%list.
Proof.
  revert acc. induction stdin as [|line stdin IH]; intros acc; simpl; [done|].
  case_decide as Hline.
  - intros [= <- <-]. exists []. subst. by rewrite app_nil_r.
  - intros Hread. apply IH in Hread as (new & -> & Hnew & ->).
    exists (line :: new). rewrite <- (assoc_L (++)). by repeat constructor.
Qed.

Lemma read_entry_lines acc lines rest :
  Forall (λ l, l ≠ EmptyString) lines →
  read_entry acc (lines ++ EmptyString :: rest) = Some ((acc ++ lines)%list, rest).
Proof.
  intros Hlines. revert acc. induction Hlines as [|l lines Hl _ IH]; intros acc; simpl.
  - by rewrite app_nil_r.
  - rewrite decide_False by done. by rewrite IH, <- (assoc_L (++)).
Qed.

Lemma chat_loop_rest env u stdin s rest s' :
  chat_loop env u stdin s = (inr (Returned rest), s') →
  (length rest < length stdin)%nat.
Proof.
  revert s. induction stdin as [|line stdin IH]; intros s; [done|].
  rewrite chat_loop_cons. case_decide.
  - intros [= <- _]. simpl. lia.
  - case_decide; intros Hrun; apply IH in Hrun; simpl; lia.
Qed.

Lemma session_step_refl u s : session_step u s s.
Proof.
  split; [done|]. split; [by left|]. exists []. by rewrite app_nil_r.
Qed.

Lemma session_step_trans u s1 s2 s3 :
  session_step u s1 s2 → session_step u s2 s3 → session_step u s1 s3.
Proof.
  intros (Hdom1 & Hown1 & evs1 & Htr1 & Hev1) (Hdom2 & Hown2 & evs2 & Htr2 & Hev2).
  split; [by etrans|]. split.
  - intros id p Hp. destruct (Hown2 id p Hp) as [Hp2|Hm]; [by apply Hown1 | by right].
  - exists (evs1 ++ evs2)%list. rewrite Htr2, Htr1, <- (assoc_L (++)).
    split; [done | by apply Forall_app].
Qed.

Lemma session_step_reads u s s' evs :
  points s' = points s → trace s' = (trace s ++ evs)%list →
  Forall (scoped_to u) evs → session_step u s s'.
Proof.
  intros Hpts Htr Hevs. split; [by rewrite Hpts|]. split.
  - intros id p Hp. left. by rewrite <- Hpts.
  - by exists evs.
Qed.

Lemma session_step_print u s s' msg :
  session_step u s s' → session_step u s (logged (EvPrint msg) s').
Proof.
  intros Hstep. eapply session_step_trans; [exact Hstep|].
  by apply (session_step_reads u s' _ [EvPrint msg]); [| |repeat constructor].
Qed.

Lemma session_step_feedback env u text s s' :
  session_step u s s' → session_step u s (get_ai_feedback env text s').2.
Proof.
  intros Hstep. eapply session_step_trans; [exact Hstep|].
  unfold get_ai_feedback. rewrite chat_completions_create_run. simpl.
  by eapply (session_step_reads u s' _ [_]); [| |repeat constructor].
Qed.

Lemma session_step_store env u text s s' :
  session_step u s s' → session_step u s (store_journal_entry env u text s').2.
Proof.
  intros Hstep. eapply session_step_trans; [exact Hstep|].
  rewrite store_journal_entry_run.
  destruct (embed_documents env _ text) as [e|v].
  { by eapply (session_step_reads u s' _ [_]); [| |repeat constructor]. }
  destruct (upsert_fault env _) as [e|].
  { eapply (session_step_reads u s' _ [_; _]);
      [done | unfold logged; simpl; by rewrite <- (assoc_L (++))
      | by repeat constructor]. }
  simpl. split; [|split].
  - simpl. rewrite dom_insert_L. set_solver.
  - simpl. intros id p Hp. apply lookup_insert_Some in Hp as [[<- <-]|[_ Hp]].
    + right. apply journal_payload_matches.
    + by left.
  - simpl. eexists. split; [reflexivity | by repeat constructor].
Qed.

Lemma session_step_chat env u stdin s s' :
  session_step u s s' → session_step u s (start_personality_chat env u stdin s').2.
Proof.
  intros Hstep. eapply session_step_trans; [exact Hstep|].
  rewrite start_personality_chat_run.
  match goal with |- context [chat_loop env u stdin ?s0] =>
    destruct (chat_loop_total env u stdin s0) as (r & s'' & Hrun & Hpts);
    destruct (chat_loop_scrolls env u stdin s0) as (evs & Htrace & _ & Hscoped)
  end.
  rewrite Hrun in *. simpl in *.
  eapply (session_step_reads u s' s'' (_ :: _ :: _ :: _ :: evs)); [done| |].
  - rewrite Htrace. simpl. rewrite <- !(assoc_L (++)). reflexivity.
  - by repeat constructor.
Qed.

Ltac session_prints := repeat apply session_step_print; try apply session_step_refl.

(** One iteration of the menu either ends it, or goes on with strictly less
    input; either way the state has made a session step. *)
Lemma menu_round env u stdin s :
  (∃ r s', (∀ k, menu_body env u k stdin s = (r, s')) ∧ r ≠ inr None ∧
           session_step u s s') ∨
  (∃ stdin'' s'', (length stdin'' < length stdin)%nat ∧
           (∀ k, menu_body env u k stdin s = k stdin'' s'') ∧
           session_step u s s'').
Proof.
  unfold menu_body, bind, print, log, ret. lazy beta iota zeta.
  destruct stdin as [|line stdin'].
  { left. eexists _, _. split; [reflexivity|]. split; [done|]. session_prints. }
  case_decide as Hone.
  { destruct (read_entry [] stdin') as [[lines rest]|] eqn:Hread.
    2:{ left. eexists _, _. split; [reflexivity|]. split; [done|]. session_prints. }
    apply read_entry_spec in Hread as (new & -> & Hnew & ->). simpl app.
    case_decide as Hlines.
    { right. eexists _, _. split; [|split; [reflexivity|session_prints]].
      simpl. rewrite length_app. simpl. lia. }
    match goal with |- context [get_ai_feedback env ?t ?s0] =>
      pose proof (session_step_feedback env u t s s0 ltac:(session_prints)) as Hfb;
      destruct (get_ai_feedback env t s0) as [[e|ai_reply] sF]
    end.
    { left. eexists _, _. split; [reflexivity|]. split; [done|]. exact Hfb. }
    match goal with |- context [store_journal_entry env u ?t ?s0] =>
      pose proof (session_step_store env u t s s0 ltac:(by session_prints)) as Hst;
      destruct (store_journal_entry env u t s0) as [[e|journal_point_id] sS]
    end.
    { left. eexists _, _. split; [reflexivity|]. split; [done|]. exact Hst. }
    right. eexists _, _. split; [|split; [reflexivity|by session_prints]].
    simpl. rewrite length_app. simpl. lia. }
  case_decide as Htwo.
  { match goal with |- context [start_personality_chat env u stdin' ?s0] =>
      pose proof (session_step_chat env u stdin' s s0 ltac:(session_prints)) as Hchat;
      destruct (start_personality_chat env u stdin' s0) as [[e|[rest|]] sC] eqn:Hrun
    end.
    - left. eexists _, _. split; [reflexivity|]. split; [done|]. exact Hchat.
    - right. eexists _, _. split; [|split; [reflexivity|exact Hchat]].
      rewrite start_personality_chat_run in Hrun.
      apply chat_loop_rest in Hrun. simpl. lia.
    - left. eexists _, _. split; [reflexivity|]. split; [done|]. exact Hchat. }
  case_decide as Hthree.
  { left. eexists _, _. split; [reflexivity|]. split; [done|]. session_prints. }
  right. eexists _, _. split; [|split; [reflexivity|session_prints]]. simpl. lia.
Qed.

Lemma main_menu_loop_enough env u fuel stdin s :
  (length stdin < fuel)%nat →
  (main_menu_loop env fuel u stdin s).1 ≠ inr None ∧
  session_step u s (main_menu_loop env fuel u stdin s).2.
Proof.
  revert stdin s. induction fuel as [|fuel IH]; intros stdin s Hfuel; [lia|].
  rewrite main_menu_loop_S.
  destruct (menu_round env u stdin s)
    as [(r & s' & Hrun & Hr & Hstep)|(stdin'' & s'' & Hlen & Hrun & Hstep)];
    rewrite Hrun; [done|].
  destruct (IH stdin'' s'' ltac:(lia)) as [Hr Hstep'].
  split; [done | by eapply session_step_trans].
Qed.

Lemma main_menu_loop_fuel env u fuel1 fuel2 stdin s :
  (length stdin < fuel1)%nat → (length stdin < fuel2)%nat →
  main_menu_loop env fuel1 u stdin s = main_menu_loop env fuel2 u stdin s.
Proof.
  revert fuel2 stdin s.
  induction fuel1 as [|fuel1 IH]; intros [|fuel2] stdin s H1 H2; try lia.
  rewrite !main_menu_loop_S.
  destruct (menu_round env u stdin s)
    as [(r & s' & Hrun & _)|(stdin'' & s'' & Hlen & Hrun & _)];
    rewrite !Hrun; [done|].
  apply IH; lia.
Qed.

(** X14: [main_menu] ends on every finite input: its loop never runs out of
    iterations (each one reads at least one line), so the result is an exit,
    the [EOFError] of [input] or the error of a collaborator, and giving the
    loop more iterations than the input has lines changes nothing. *)
Theorem main_menu_terminates env USER_ID stdin s :
  (main_menu env USER_ID stdin s).1 ≠ inr None ∧
  (∀ fuel, (length stdin < fuel)%nat →
     main_menu_loop env fuel (default "anonymous" USER_ID) stdin s
       = main_menu env USER_ID stdin s).
Proof.
  unfold main_menu. split.
  - apply main_menu_loop_enough. lia.
  - intros fuel Hfuel. apply main_menu_loop_fuel; lia.
Qed.

Lemma main_menu_terminates_witness :
  main_menu_loop Scenario.healthy 40 (default "anonymous" None)
    ["1"; "Slept badly."; "Long day."; EmptyString; "2"; "Why?"; "bye"; "3"]
    Scenario.state3
  = main_menu Scenario.healthy None
      ["1"; "Slept badly."; "Long day."; EmptyString; "2"; "Why?"; "bye"; "3"]
      Scenario.state3.
Proof.
  apply (proj2 (main_menu_terminates Scenario.healthy None
                  ["1"; "Slept badly."; "Long day."; EmptyString; "2"; "Why?"; "bye"; "3"]
                  Scenario.state3)).
  simpl. lia.
Defined.

(** X19: a run of [main_menu] stays within its user (the value of [USER_ID],
    or "anonymous"): no point is removed from the collection, every point it
    adds or overwrites carries that user's id and the kind "journal", and
    every scroll and search it issues is filtered by that user and kind. *)
Theorem menu_session_scoped env USER_ID stdin s :
  dom (points s) ⊆ dom (points (main_menu env USER_ID stdin s).2) ∧
  (∀ id p, points (main_menu env USER_ID stdin s).2 !! id = Some p →
     points s !! id = Some p ∨
     matches (journal_filter (default "anonymous" USER_ID)) (sp_payload p)) ∧
  ∃ evs, trace (main_menu env USER_ID stdin s).2 = (trace s ++ evs)%list ∧
         Forall (scoped_to (default "anonymous" USER_ID)) evs.
Proof.
  unfold main_menu.
  apply (main_menu_loop_enough env (default "anonymous" USER_ID)
           (S (length stdin)) stdin s). lia.
Qed.

(** The iteration in which an entry is typed: the feedback is asked for first,
    the entry is stored after it, and an error of either ends the menu. *)
Lemma menu_write_round env u k choice lines rest s :
  PyStr.strip choice = "1" → lines ≠ [] →
  Forall (λ l, l ≠ EmptyString) lines →
  menu_body env u k (choice :: lines ++ EmptyString :: rest) s =
    match get_ai_feedback env (Py.join nl lines) (entry_typed s) with
    | (inl e, sF) => (inl e, sF)
    | (inr ai_reply, sF) =>
        match store_journal_entry env u (Py.join nl lines)
                (logged (EvPrint (nl +:+ "📦 Storing your journal entry..."))
                   (logged (EvPrint ai_reply) sF)) with
        | (inl e, sS) => (inl e, sS)
        | (inr journal_point_id, sS) =>
            k rest (logged (EvPrint ("✅ Stored journal with ID: " +:+ journal_point_id)) sS)
        end
    end.
Proof.
  intros Hchoice Hne Hlines.
  unfold menu_body, bind, print, log, ret. lazy beta iota zeta.
  rewrite decide_True by done.
  rewrite (read_entry_lines [] lines rest Hlines).
  change ([] ++ lines)%list with lines.
  rewrite decide_False by done. unfold entry_typed.
  destruct (get_ai_feedback env (Py.join nl lines) _) as [[e|ai_reply] sF]; [done|].
  by destruct (store_journal_entry env u (Py.join nl lines) _) as [[e|id] sS].
Qed.

Lemma get_ai_feedback_run env text s :
  get_ai_feedback env text s =
    (chat_completion env (logged (EvChatCompletion (feedback_request text)) s)
       (feedback_request text),
     logged (EvChatCompletion (feedback_request text)) s).
Proof. unfold get_ai_feedback. apply chat_completions_create_run. Qed.

Lemma store_failure_points env u text s e :
  (store_journal_entry env u text s).1 = inl e →
  points (store_journal_entry env u text s).2 = points s.
Proof.
  rewrite store_journal_entry_run.
  destruct (embed_documents env _ text) as [e'|v]; [done|].
  by destruct (upsert_fault env _) as [e'|].
Qed.

(** X15: when an entry has been typed (choice 1, at least one line), the
    feedback is generated before the entry is stored and nothing catches an
    error: if the completion provider fails, or if it answers and the storing
    fails, [main_menu] ends with that error and the collection is what it was:
    the typed entry is not stored. *)
Theorem menu_error_stores_nothing env USER_ID choice lines rest s e :
  PyStr.is_ascii choice → PyStr.strip choice = "1" →
  lines ≠ [] → Forall (λ l, l ≠ EmptyString) lines →
  ((∀ s0, chat_completion env s0 (feedback_request (Py.join nl lines)) = inl e) →
     ∃ s', main_menu env USER_ID (choice :: lines ++ EmptyString :: rest) s
             = (inl e, s') ∧ points s' = points s) ∧
  (∀ ai_reply,
     (∀ s0, chat_completion env s0 (feedback_request (Py.join nl lines))
              = inr ai_reply) →
     (∀ s0, (store_journal_entry env (default "anonymous" USER_ID)
               (Py.join nl lines) s0).1 = inl e) →
     ∃ s', main_menu env USER_ID (choice :: lines ++ EmptyString :: rest) s
             = (inl e, s') ∧ points s' = points s).
Proof.
  intros _ Hchoice Hne Hlines. unfold main_menu.
  rewrite main_menu_loop_S, menu_write_round, get_ai_feedback_run by done.
  split.
  - intros Hdown. rewrite Hdown. by eexists.
  - intros ai_reply Hup Hstore. rewrite Hup.
    match goal with |- context [store_journal_entry env ?u ?t ?s0] =>
      pose proof (Hstore s0) as Hfail;
      pose proof (store_failure_points env u t s0 e Hfail) as Hpts;
      destruct (store_journal_entry env u t s0) as [[e'|id] sS]
    end; simpl in *; [|done].
    injection Hfail as ->. by eexists.
Qed.

Lemma menu_error_stores_nothing_witness :
  ∃ s', main_menu Scenario.embedding_down (Some "u1")
          (" 1" :: ["Slept badly."; "Long day."] ++ EmptyString :: ["3"])
          Scenario.state3
        = (inl (EmbeddingError "rate limited"), s') ∧
        points s' = points Scenario.state3.
Proof.
  apply (proj2 (menu_error_stores_nothing Scenario.embedding_down (Some "u1")
                  " 1" ["Slept badly."; "Long day."] ["3"] Scenario.state3
                  (EmbeddingError "rate limited")
                  ltac:(by_decision) ltac:(reflexivity) ltac:(done)
                  ltac:(by_decision))
           "Take a short walk tomorrow.").
  - reflexivity.
  - reflexivity.
Defined.



(** ** Typed entries and their contexts *)

Lemma append_cons a (x r : string) : String a x +:+ r = String a (x +:+ r).
Proof. reflexivity. Qed.

Lemma lines_nonempty_line af l r :
  ¬ has_newline l → l ≠ EmptyString →
  lines_nonempty af (l +:+ r) = lines_nonempty false r.
Proof.
  revert af. induction l as [|c l IH]; intros af Hnl Hne; [done|].
  rewrite append_cons. simpl.
  rewrite decide_False by (intros ->; apply Hnl, has_newline_cons; by left).
  destruct l as [|d l]; [done|].
  apply IH; [|done]. intros H. apply Hnl, has_newline_cons. by right.
Qed.

Lemma join_lines_well_lined lines :
  lines ≠ [] → Forall (λ l, l ≠ EmptyString ∧ ¬ has_newline l) lines →
  well_lined (Py.join nl lines).
Proof.
  unfold well_lined. induction lines as [|l lines IH]; [done|].
  intros _ Hall. apply Forall_cons in Hall as [[Hne Hnl] Hall].
  destruct lines as [|l2 lines].
  - simpl. rewrite <- (append_nil_r l). by rewrite lines_nonempty_line.
  - change (Py.join nl (l :: l2 :: lines))
      with (l +:+ String "010"%char (Py.join nl (l2 :: lines))).
    rewrite lines_nonempty_line by done.
    change (lines_nonempty true (Py.join nl (l2 :: lines)) = true).
    by apply IH.
Qed.

(** X16: the text of a typed entry has no empty line: the lines read up to the
    first empty line are all non-empty and, [input] returning lines without
    line feed, their join by line feeds is not empty, has no two line feeds
    in a row and neither starts nor ends with one. *)
Theorem typed_entry_has_no_empty_line stdin lines rest :
  Forall (λ l, ¬ has_newline l) stdin →
  read_entry [] stdin = Some (lines, rest) →
  lines ≠ [] →
  stdin = (lines ++ EmptyString :: rest)%list ∧
  Forall (λ l, l ≠ EmptyString) lines ∧
  well_lined (Py.join nl lines).
Proof.
  intros Hstdin Hread Hne.
  apply read_entry_spec in Hread as (new & -> & Hnew & ->). simpl in *.
  split; [done|]. split; [done|].
  apply join_lines_well_lined; [done|].
  apply Forall_app in Hstdin as [Hstdin _].
  rewrite Forall_forall in Hnew, Hstdin. apply Forall_forall. intros l Hl.
  split; [by apply Hnew | by apply Hstdin].
Qed.

Lemma typed_entry_has_no_empty_line_witness :
  well_lined (Py.join nl ["Slept badly."; "Long day."]).
Proof.
  apply (typed_entry_has_no_empty_line
           ["Slept badly."; "Long day."; EmptyString; "3"]
           ["Slept badly."; "Long day."] ["3"]).
  - by_decision.
  - reflexivity.
  - done.
Defined.

Lemma lines_nonempty_tail af a x :
  lines_nonempty af (String a x) = true →
  lines_nonempty (bool_decide (a = "010"%char)) x = true.
Proof.
  simpl. case_decide as Ha.
  - rewrite bool_decide_eq_true_2 by done. by intros [_ ?]%andb_prop.
  - by rewrite bool_decide_eq_false_2.
Qed.

Lemma lines_nonempty_not_boundary af b y r r' :
  lines_nonempty af (String b y) = true →
  String b (y +:+ r) ≠ String "010"%char (String "010"%char r') ∨ af = true.
Proof.
  intros Hy. destruct af; [by right|]. left. intros [= -> Heq].
  apply lines_nonempty_tail in Hy. rewrite bool_decide_eq_true_2 in Hy by done.
  destruct y as [|d y]; [done|].
  rewrite append_cons in Heq. injection Heq as -> _. done.
Qed.

Lemma first_entry_unique_lined af x y r1 r2 :
  lines_nonempty af x = true → lines_nonempty af y = true →
  blank_line_boundary r1 → blank_line_boundary r2 →
  x +:+ r1 = y +:+ r2 → x = y ∧ r1 = r2.
Proof.
  revert af y. induction x as [|a x IH]; intros af [|b y] Hx Hy Hr1 Hr2 Heq.
  - done.
  - change (r1 = String b (y +:+ r2)) in Heq.
    destruct af; [done|].
    destruct Hr1 as [->|[r' ->]]; [done|].
    by destruct (lines_nonempty_not_boundary false b y r2 r' Hy).
  - change (String a (x +:+ r1) = r2) in Heq.
    destruct af; [done|].
    destruct Hr2 as [->|[r' ->]]; [done|].
    by destruct (lines_nonempty_not_boundary false a x r1 r' Hx).
  - rewrite !append_cons in Heq. injection Heq as -> Heq.
    apply lines_nonempty_tail in Hx, Hy.
    by destruct (IH _ y Hx Hy Hr1 Hr2 Heq) as [-> ->].
Qed.

Lemma join_rest_blank_line_boundary l : blank_line_boundary (join_rest l).
Proof. destruct l; [by left | right; by eexists]. Qed.

Lemma join_well_lined_inj l1 l2 :
  l1 ≠ [] → l2 ≠ [] →
  Forall well_lined l1 → Forall well_lined l2 →
  Py.join CONTEXT_SEPARATOR l1 = Py.join CONTEXT_SEPARATOR l2 → l1 = l2.
Proof.
  revert l2. induction l1 as [|x l1 IH]; [done|].
  intros [|y l2] _ Hne2 H1 H2 Heq; [done|].
  apply Forall_cons in H1 as [Hx H1]. apply Forall_cons in H2 as [Hy H2].
  rewrite !join_cons_rest in Heq.
  apply (first_entry_unique_lined true) in Heq as [-> Hrest];
    [|done|done|apply join_rest_blank_line_boundary..].
  f_equal. destruct l1 as [|x1 l1], l2 as [|y2 l2]; try done.
  apply IH; try done. unfold join_rest in Hrest.
  by apply (inj (String.append CONTEXT_SEPARATOR)) in Hrest.
Qed.

(** X17: contexts built from texts without empty line are unambiguous: two
    distinct non-empty sequences of such texts (what the menu stores) give
    distinct joined contexts, although the texts may hold line feeds and
    dashes. *)
Theorem context_unambiguous_for_typed_entries l1 l2 :
  l1 ≠ [] → l2 ≠ [] →
  Forall well_lined l1 → Forall well_lined l2 →
  l1 ≠ l2 →
  Py.join CONTEXT_SEPARATOR l1 ≠ Py.join CONTEXT_SEPARATOR l2.
Proof.
  intros Hne1 Hne2 H1 H2 Hdiff Heq. by apply Hdiff, join_well_lined_inj.
Qed.

Lemma context_unambiguous_for_typed_entries_witness :
  Py.join CONTEXT_SEPARATOR ["Slept badly." +:+ nl +:+ "---"; "Long day."]
  ≠ Py.join CONTEXT_SEPARATOR ["Slept badly."; "---" +:+ nl +:+ "Long day."].
Proof.
  apply context_unambiguous_for_typed_entries;
    first [done | by_decision | by_evaluation].
Defined.

(** ** Leaving the menu *)

Lemma only_printed_refl s : only_printed s s.
Proof. split; [done|]. exists []. by rewrite app_nil_r. Qed.

Lemma only_printed_print s s' msg :
  only_printed s s' → only_printed s (logged (EvPrint msg) s').
Proof.
  intros [Hpts (evs & Htr & Hcalls)]. split; [done|].
  exists (evs ++ [EvPrint msg])%list. simpl. rewrite Htr, <- (assoc_L (++)).
  split; [done|]. by rewrite List.filter_app, Hcalls.
Qed.

Lemma menu_exit_loop env u fuel pre choice post s :
  (length (pre ++ choice :: post) < fuel)%nat →
  Forall (λ l, PyStr.strip l ∉ ["1"; "2"; "3"]) pre →
  PyStr.strip choice = "3" →
  ∃ s', main_menu_loop env fuel u (pre ++ choice :: post) s
          = (inr (Some (Returned post)), s') ∧ only_printed s s'.
Proof.
  intros Hfuel Hpre Hchoice. revert fuel s Hfuel.
  induction Hpre as [|l pre Hl _ IH]; intros [|fuel] s Hfuel; try (simpl in Hfuel; lia).
  - simpl app. rewrite main_menu_loop_S.
    unfold menu_body, bind, print, log, ret. lazy beta iota zeta.
    rewrite Hchoice. rewrite decide_False by done. rewrite decide_False by done.
    rewrite decide_True by done.
    eexists. split; [reflexivity|].
    repeat apply only_printed_print. apply only_printed_refl.
  - change ((l :: pre) ++ choice :: post)%list with (l :: (pre ++ choice :: post))%list.
    rewrite main_menu_loop_S.
    unfold menu_body, bind, print, log, ret. lazy beta iota zeta.
    rewrite !decide_False by (intros Heq; apply Hl; rewrite Heq; set_solver).
    match goal with |- context [main_menu_loop env fuel u _ ?s0] =>
      destruct (IH fuel s0) as (s' & Hrun & Hpts & evs & Htr & Hcalls)
    end.
    { simpl in Hfuel. lia. }
    exists s'. split; [exact Hrun|]. split; [exact Hpts|].
    simpl in Htr. rewrite <- !(assoc_L (++)) in Htr. simpl in Htr.
    eexists. split; [exact Htr|]. simpl. exact Hcalls.
Qed.

(** X21: choosing 3 leaves the menu, and choices other than 1, 2 and 3 only
    print a notice: after any number of such choices, the first "3" (blanks
    around it stripped) ends [main_menu] normally with the following lines
    unread, the collection untouched and no collaborator called.  (ASCII
    lines.) *)
Theorem menu_exit_after_invalid_choices env USER_ID pre choice post s :
  Forall PyStr.is_ascii (pre ++ [choice]) →
  Forall (λ l, PyStr.strip l ∉ ["1"; "2"; "3"]) pre →
  PyStr.strip choice = "3" →
  ∃ s', main_menu env USER_ID (pre ++ choice :: post) s
          = (inr (Some (Returned post)), s') ∧
        points s' = points s ∧
        ∃ evs, trace s' = (trace s ++ evs)%list ∧
               List.filter provider_call evs = [].
Proof.
  intros _ Hpre Hchoice. unfold main_menu. apply menu_exit_loop; [lia|done..].
Qed.

Lemma menu_exit_after_invalid_choices_witness :
  ∃ s', main_menu Scenario.healthy None (["7"; "write"] ++ " 3 " :: ["1"])
          Scenario.state3
          = (inr (Some (Returned ["1"])), s') ∧
        points s' = points Scenario.state3 ∧
        ∃ evs, trace s' = (trace Scenario.state3 ++ evs)%list ∧
               List.filter provider_call evs = [].
Proof.
  apply menu_exit_after_invalid_choices; first [by_decision | reflexivity].
Defined.

(** ** Bootstrap *)

(** X20: ensuring the collection is idempotent and never touches what is
    there: afterwards a collection named "journals" exists, every collection
    that existed is still there as it was, a second run changes nothing, and
    an existing "journals" collection is kept whatever its vector size and
    distance are. *)
Theorem ensure_collection_idempotent collections :
  COLLECTION_NAME ∈ c_name <$> ensure_collection collections ∧
  collections `prefix_of` ensure_collection collections ∧
  ensure_collection (ensure_collection collections) = ensure_collection collections ∧
  (∀ c, c ∈ collections → c_name c = COLLECTION_NAME →
        ensure_collection collections = collections).
Proof.
  assert (Hin : COLLECTION_NAME ∈ c_name <$> ensure_collection collections).
  { unfold ensure_collection. case_decide; [done|].
    rewrite fmap_app. apply elem_of_app. right. by left. }
  split; [exact Hin|]. split; [|split].
  - unfold ensure_collection. case_decide; [done | by eexists].
  - unfold ensure_collection at 1. by rewrite decide_True.
  - intros c Hc Hname. unfold ensure_collection. rewrite decide_True; [done|].
    rewrite <- Hname. by apply list_elem_of_fmap_2.
Qed.
